(** * Cidades: [utils.py] -- classification of records and Voronoi tessellation

    A shallow embedding of [classifica_cafe] and [calcular_voronoi] from
    [src/Cidades-main/utils.py], and the properties the specification
    states about them.

    [calcular_voronoi] is glue code around a computational-geometry
    kernel that is not part of the repository: [scipy.spatial.Voronoi],
    [shapely]'s [Polygon], [intersection], [is_empty], [unary_union], and
    the [GeoDataFrame] container.  The kernel operations are parameters
    of the embedding (section [Kernel]); whatever a property needs from
    them is a named hypothesis of its theorem.  Module [Sample] gives an
    exact kernel on rectangles with rational bounds, on which every
    hypothesis is checked on the scenarios of the specification. *)

From stdpp Require Import base list strings gmap.
From Stdlib Require Import ZArith QArith Qabs Qminmax Sorted Lia Lqa.

Local Open Scope Z_scope.

(** ** Exceptions and results *)

(** The exceptions that can leave the functions.  [IndexError],
    [TypeError] and [AttributeError] are Python's own (indexing, the
    truth value of [pd.NA], an attribute a value does not have); the
    other two come from the kernel: [InputValidityError] is what the
    diagram construction raises on a point set it rejects (scipy's
    [QhullError] / [ValueError]), [GeometryError] what a polygon
    operation raises. *)
Inductive exn : Type :=
  | IndexError
  | InputValidityError
  | GeometryError
  | TypeError
  | AttributeError.

Inductive result (A : Type) : Type :=
  | Ok (a : A)
  | Raise (e : exn).

Arguments Ok {A} a.
Arguments Raise {A} e.

Definition bind {A B : Type} (m : result A) (k : A -> result B) : result B :=
  match m with
  | Ok a => k a
  | Raise e => Raise e
  end.

Notation "'let*' x ':=' m 'in' k" := (bind m (fun x => k))
  (at level 10, x name, m at level 100, k at level 200,
   format "'[v' 'let*'  x  :=  m  'in' '/' k ']'").

(** A list comprehension [[f(i) for i in l]]: left to right, the first
    exception aborts it. *)
Fixpoint traverse {A B : Type} (f : A -> result B) (l : list A) : result (list B) :=
  match l with
  | [] => Ok []
  | x :: l' => let* y := f x in let* ys := traverse f l' in Ok (y :: ys)
  end.

(** ** Python indexing *)

(** [l[i]] for a Python list or a numpy array and an integer [i]:
    a negative index counts from the end, an index outside
    [-len .. len-1] raises [IndexError]. *)
Definition py_index {A : Type} (l : list A) (i : Z) : result A :=
  let n := Z.of_nat (length l) in
  let j := if i <? 0 then i + n else i in
  if (0 <=? j) && (j <? n) then
    match l !! Z.to_nat j with
    | Some x => Ok x
    | None => Raise IndexError
    end
  else Raise IndexError.

(** ** Data *)

(** The attributes of a [scipy.spatial.Voronoi] object the code reads.
    [regions] lists, per region, the indices of its vertices, with [-1]
    standing for the vertex at infinity; [point_region] gives, per input
    point, the index of its region. *)
Record Diagram (Coord : Type) : Type := {
  vertices : list Coord;
  regions : list (list Z);
  point_region : list Z
}.

Arguments vertices {Coord} _.
Arguments regions {Coord} _.
Arguments point_region {Coord} _.

(** A [GeoDataFrame] as the code uses it: a geometry column and a
    coordinate reference system.  A frame built from a plain list has
    the default row labels [0, 1, ..] ([gdf_rows]). *)
Record GeoDataFrame (Geom CRS : Type) : Type := {
  geometry : list Geom;
  crs : CRS
}.

Arguments geometry {Geom CRS} _.
Arguments crs {Geom CRS} _.

Definition gdf_rows {Geom CRS : Type} (gdf : GeoDataFrame Geom CRS) : list (nat * Geom) :=
  zip (seq 0 (length (geometry gdf))) (geometry gdf).

(** ** The tessellation *)

Section Kernel.

Context {Coord Geom CRS : Type}.

(** [scipy.spatial.Voronoi(points)] *)
Variable Voronoi : list Coord -> result (Diagram Coord).
(** [shapely.ops.unary_union(geoms)] *)
Variable unary_union : list Geom -> result Geom.
(** [shapely.geometry.Polygon(coords)] *)
Variable Polygon : list Coord -> result Geom.
(** [a.intersection(b)] *)
Variable intersection : Geom -> Geom -> result Geom.
(** [g.is_empty] *)
Variable is_empty : Geom -> bool.

(** [not region or -1 in region] *)
Definition skipped (region : list Z) : bool :=
  match region with
  | [] => true
  | _ => existsb (Z.eqb (-1)) region
  end.

(** The body of the [for] loop for one [region_index]: [None] when the
    iteration appends nothing, [Some clipped_polygon] when it appends. *)
Definition region_cell (vor : Diagram Coord) (boundary : Geom) (region_index : Z)
  : result (option Geom) :=
  let* region := py_index (regions vor) region_index in
  if skipped region then Ok None
  else
    let* polygon_coords := traverse (py_index (vertices vor)) region in
    let* polygon := Polygon polygon_coords in
    let* clipped_polygon := intersection polygon boundary in
    if is_empty clipped_polygon then Ok None else Ok (Some clipped_polygon).

(** [for region_index in vor.point_region: ...], threading the local
    list [voronoi_polygons]. *)
Fixpoint voronoi_loop (vor : Diagram Coord) (boundary : Geom)
    (region_indices : list Z) (voronoi_polygons : list Geom) : result (list Geom) :=
  match region_indices with
  | [] => Ok voronoi_polygons
  | region_index :: rest =>
      let* cell := region_cell vor boundary region_index in
      voronoi_loop vor boundary rest
        (match cell with
         | Some clipped_polygon => voronoi_polygons ++ [clipped_polygon]
         | None => voronoi_polygons
         end)
  end.

Definition calcular_voronoi (cafe_coords : list Coord)
    (boundary_gdf : GeoDataFrame Geom CRS) : result (GeoDataFrame Geom CRS) :=
  let* vor := Voronoi cafe_coords in
  let* boundary := unary_union (geometry boundary_gdf) in
  let* voronoi_polygons := voronoi_loop vor boundary (point_region vor) [] in
  Ok {| geometry := voronoi_polygons; crs := crs boundary_gdf |}.

(** *** Generators and their regions *)

(** The cells among the outcomes of the iterations, in order. *)
Fixpoint appended (cells : list (option Geom)) : list Geom :=
  match cells with
  | [] => []
  | Some g :: cells' => g :: appended cells'
  | None :: cells' => appended cells'
  end.

(** The positions, counted from [start], of the iterations that
    appended a cell. *)
Fixpoint survivors (cells : list (option Geom)) (start : nat) : list nat :=
  match cells with
  | [] => []
  | Some _ :: cells' => start :: survivors cells' (S start)
  | None :: cells' => survivors cells' (S start)
  end.

(** The loop visits [vor.point_region] in order, so its [i]-th
    iteration is the one of generator [i], the [i]-th input point. *)
Definition generator_region (vor : Diagram Coord) (i : nat) : result (list Z) :=
  match point_region vor !! i with
  | Some region_index => py_index (regions vor) region_index
  | None => Raise IndexError
  end.

Definition generator_cell (vor : Diagram Coord) (boundary : Geom) (i : nat)
  : result (option Geom) :=
  match point_region vor !! i with
  | Some region_index => region_cell vor boundary region_index
  | None => Raise IndexError
  end.

(** A region is unbounded when it uses the vertex at infinity. *)
Definition unbounded (vor : Diagram Coord) (i : nat) : Prop :=
  exists region, generator_region vor i = Ok region /\ (-1) ∈ region.

(** The polygon the loop body builds before clipping. *)
Definition region_polygon (vor : Diagram Coord) (region_index : Z) : result (option Geom) :=
  let* region := py_index (regions vor) region_index in
  if skipped region then Ok None
  else
    let* polygon_coords := traverse (py_index (vertices vor)) region in
    let* polygon := Polygon polygon_coords in
    Ok (Some polygon).

Definition generator_polygon (vor : Diagram Coord) (i : nat) : result (option Geom) :=
  match point_region vor !! i with
  | Some region_index => region_polygon vor region_index
  | None => Raise IndexError
  end.

(** A diagram is well formed when every entry of [point_region] names
    a region and every bounded region names vertices. *)
Definition well_formed (vor : Diagram Coord) : Prop :=
  Forall (fun r => 0 <= r < Z.of_nat (length (regions vor))) (point_region vor) /\
  Forall (fun region => skipped region = false ->
            Forall (fun v => 0 <= v < Z.of_nat (length (vertices vor))) region)
         (regions vor).

(** The polygon constructor accepts the ring of every bounded region. *)
Definition rings_accepted (vor : Diagram Coord) : Prop :=
  Forall (fun region => skipped region = false ->
            forall ring, traverse (py_index (vertices vor)) region = Ok ring ->
              exists polygon, Polygon ring = Ok polygon)
         (regions vor).

(** Every row of the frame carries the index of the generator of its
    cell. *)
Definition rows_paired_with_generators (vor : Diagram Coord) (boundary : Geom)
    (out : GeoDataFrame Geom CRS) : Prop :=
  forall idx cell, (idx, cell) ∈ gdf_rows out ->
    generator_cell vor boundary idx = Ok (Some cell).

End Kernel.

(** ** Plane geometry

    Coordinates are idealised as rationals: the points of the plane are
    pairs of rationals, and a geometry denotes the set of points it
    covers. *)

Definition same_point (p q : Q * Q) : bool :=
  Qeq_bool p.1 q.1 && Qeq_bool p.2 q.2.

Fixpoint distinct_points (l : list (Q * Q)) : list (Q * Q) :=
  match l with
  | [] => []
  | p :: l' =>
      if existsb (same_point p) l' then distinct_points l'
      else p :: distinct_points l'
  end.

Definition collinear (p q r : Q * Q) : bool :=
  Qeq_bool ((q.1 - p.1) * (r.2 - p.2)) ((q.2 - p.2) * (r.1 - p.1)).

Definition all_collinear (l : list (Q * Q)) : bool :=
  forallb (fun p => forallb (fun q => forallb (collinear p q) l) l) l.

(** No point occurs twice. *)
Fixpoint all_distinct (l : list (Q * Q)) : bool :=
  match l with
  | [] => true
  | p :: l' => negb (existsb (same_point p) l') && all_distinct l'
  end.

(** At least 4 distinct points, not all on one line. *)
Definition legal_points (l : list (Q * Q)) : bool :=
  (4 <=? length (distinct_points l))%nat && negb (all_collinear l).

(** Point [i] lies on the convex hull of the point set: some line
    through it has every point of the set on one side. *)
Definition on_hull (l : list (Q * Q)) (i : nat) : Prop :=
  exists p, l !! i = Some p /\
    exists a b : Q, ~ (a == 0 /\ b == 0)%Q /\
      Forall (fun q => a * (q.1 - p.1) + b * (q.2 - p.2) <= 0)%Q l.

(** The interior of a geometry, for the set of points [covers] gives it:
    the points with an open square around them inside the geometry. *)
Definition interior {Geom : Type} (covers : Geom -> Q * Q -> Prop) (g : Geom) (p : Q * Q)
  : Prop :=
  exists eps : Q, (0 < eps)%Q /\
    forall q : Q * Q,
      (Qabs (q.1 - p.1) < eps)%Q -> (Qabs (q.2 - p.2) < eps)%Q -> covers g q.

(** ** What the properties assume of the diagram construction *)

Section DiagramContracts.

Context {Geom : Type}.
Variable Voronoi : list (Q * Q) -> result (Diagram (Q * Q)).
Variable Polygon : list (Q * Q) -> result Geom.
Variable covers : Geom -> Q * Q -> Prop.

(** Modelled from the spec: "for N input points, a planar partition
    into N regions": one entry of [point_region] per input point. *)
Definition region_per_point (points : list (Q * Q)) : Prop :=
  forall vor, Voronoi points = Ok vor -> length (point_region vor) = length points.

(** Modelled from the spec: "regions for points on the convex hull of
    the generator set are unbounded", and "a region is unbounded iff its
    boundary uses a vertex-at-infinity". *)
Definition hull_regions_unbounded (points : list (Q * Q)) : Prop :=
  forall vor i, Voronoi points = Ok vor -> on_hull points i -> unbounded vor i.

(** Modelled from the spec: in the diagram the library builds, "Voronoi
    cells have disjoint interiors by construction".  That is so for two
    generators at different places; the copies of a repeated point share
    one region.  Here, for the polygons the loop builds from the bounded
    regions of two generators at different places. *)
Definition separate_generators_disjoint (points : list (Q * Q)) : Prop :=
  forall vor i j pi pj gi gj,
    Voronoi points = Ok vor ->
    points !! i = Some pi -> points !! j = Some pj -> same_point pi pj = false ->
    generator_polygon Polygon vor i = Ok (Some gi) ->
    generator_polygon Polygon vor j = Ok (Some gj) ->
    forall p, ~ (interior covers gi p /\ interior covers gj p).

End DiagramContracts.

(** ** What the properties assume of the kernel *)

Section Contracts.

Context {Coord Geom : Type}.
Variable unary_union : list Geom -> result Geom.
Variable Polygon : list Coord -> result Geom.
Variable intersection : Geom -> Geom -> result Geom.
Variable is_empty : Geom -> bool.
Variable covers : Geom -> Q * Q -> Prop.

(** Modelled from the spec: the Boundary Resolver is the library call
    [unary_union], which is not part of the repository; it "returns an
    empty region if the input sequence is empty" and does not raise. *)
Definition union_of_nothing_empty : Prop :=
  exists e, unary_union [] = Ok e /\ is_empty e = true.

(** Modelled from the spec: the resolver's output is "the set union of
    all inputs"; here, that it covers no point outside its inputs. *)
Definition union_within : Prop :=
  forall gs u, unary_union gs = Ok u ->
    forall p, covers u p -> exists g, g ∈ gs /\ covers g p.

(** The intersection of two geometries covers only points of both. *)
Definition intersection_within : Prop :=
  forall a b c, intersection a b = Ok c ->
    forall p, covers c p -> covers a p /\ covers b p.

(** Intersecting with an empty region gives an empty geometry. *)
Definition intersection_with_empty : Prop :=
  forall a e, is_empty e = true ->
    exists c, intersection a e = Ok c /\ is_empty c = true.

End Contracts.

(** ** A sample kernel: exact geometry on rectangles

    Geometries are finite unions of closed axis-parallel rectangles with
    rational bounds, on which union and intersection are exact.  The
    polygon constructor accepts the rings that are such rectangles, and
    the diagram construction knows the diagrams of four point sets: the
    3 x 3 grid of the specification's scenario, a 4 x 3 grid with two
    bounded cells, three points, and the 3 x 3 grid with its centre
    given twice.  It rejects points that all lie on one line, as fewer
    than three distinct points do, with [InputValidityError]; any other
    point set it does not know is outside its domain
    ([GeometryError]). *)

Module Sample.

Record Box : Type := { x0 : Q; y0 : Q; x1 : Q; y1 : Q }.

Definition box_covers (b : Box) (p : Q * Q) : Prop :=
  (x0 b <= p.1 /\ p.1 <= x1 b /\ y0 b <= p.2 /\ p.2 <= y1 b)%Q.

Definition covers (g : list Box) (p : Q * Q) : Prop :=
  Exists (fun b => box_covers b p) g.

Definition box_inter (a b : Box) : Box :=
  {| x0 := Qmax (x0 a) (x0 b); y0 := Qmax (y0 a) (y0 b);
     x1 := Qmin (x1 a) (x1 b); y1 := Qmin (y1 a) (y1 b) |}.

Definition box_nonempty (b : Box) : bool :=
  Qle_bool (x0 b) (x1 b) && Qle_bool (y0 b) (y1 b).

Definition intersection (a b : list Box) : result (list Box) :=
  Ok (List.filter box_nonempty (flat_map (fun ba => map (box_inter ba) b) a)).

Definition unary_union (gs : list (list Box)) : result (list Box) :=
  Ok (concat gs).

Definition is_empty (g : list Box) : bool :=
  match g with
  | [] => true
  | _ => false
  end.

(** A ring of four corners, walked along the sides in either sense. *)
Definition Polygon (ring : list (Q * Q)) : result (list Box) :=
  match ring with
  | [a; b; c; d] =>
      if (Qeq_bool a.2 b.2 && Qeq_bool b.1 c.1 && Qeq_bool c.2 d.2 && Qeq_bool d.1 a.1
          || Qeq_bool a.1 b.1 && Qeq_bool b.2 c.2 && Qeq_bool c.1 d.1 && Qeq_bool d.2 a.2)
         && negb (Qeq_bool a.1 c.1) && negb (Qeq_bool a.2 c.2)
      then Ok [ {| x0 := Qmin a.1 c.1; y0 := Qmin a.2 c.2;
                   x1 := Qmax a.1 c.1; y1 := Qmax a.2 c.2 |} ]
      else Raise GeometryError
  | _ => Raise GeometryError
  end.

Definition pt (x y : Z) : Q * Q := (inject_Z x, inject_Z y).

Definition box (xa ya xb yb : Z) : Box :=
  {| x0 := inject_Z xa; y0 := inject_Z ya; x1 := inject_Z xb; y1 := inject_Z yb |}.

(** The 3 x 3 grid with spacing 10, row by row. *)
Definition grid3x3 : list (Q * Q) :=
  [pt 5 5; pt 15 5; pt 25 5;
   pt 5 15; pt 15 15; pt 25 15;
   pt 5 25; pt 15 25; pt 25 25].

(** Its diagram: four vertices around the centre; the centre's region
    is the only bounded one. *)
Definition diagram3x3 : Diagram (Q * Q) :=
  {| vertices := [pt 10 10; pt 20 10; pt 10 20; pt 20 20];
     regions := [[]; [-1; 0]; [-1; 0; 1]; [-1; 1];
                 [-1; 0; 2]; [0; 1; 3; 2]; [-1; 1; 3];
                 [-1; 2]; [-1; 2; 3]; [-1; 3]];
     point_region := [1; 2; 3; 4; 5; 6; 7; 8; 9] |}.

(** The 4 x 3 grid with spacing 10, row by row. *)
Definition grid4x3 : list (Q * Q) :=
  [pt 5 5; pt 15 5; pt 25 5; pt 35 5;
   pt 5 15; pt 15 15; pt 25 15; pt 35 15;
   pt 5 25; pt 15 25; pt 25 25; pt 35 25].

(** Its diagram: the regions of the two inner points are bounded. *)
Definition diagram4x3 : Diagram (Q * Q) :=
  {| vertices := [pt 10 10; pt 20 10; pt 30 10; pt 10 20; pt 20 20; pt 30 20];
     regions := [[]; [-1; 0]; [-1; 0; 1]; [-1; 1; 2]; [-1; 2];
                 [-1; 0; 3]; [0; 1; 4; 3]; [1; 2; 5; 4]; [-1; 2; 5];
                 [-1; 3]; [-1; 3; 4]; [-1; 4; 5]; [-1; 5]];
     point_region := [1; 2; 3; 4; 5; 6; 7; 8; 9; 10; 11; 12] |}.

Fixpoint same_points (l1 l2 : list (Q * Q)) : bool :=
  match l1, l2 with
  | [], [] => true
  | p :: l1', q :: l2' => same_point p q && same_points l1' l2'
  | _, _ => false
  end.

(** Three points, fewer than the four the specification asks for. *)
Definition triangle : list (Q * Q) := [pt 0 0; pt 10 0; pt 0 10].

(** Their diagram: one vertex, the centre of the circle through the
    three points, and three unbounded regions. *)
Definition diagram_triangle : Diagram (Q * Q) :=
  {| vertices := [pt 5 5];
     regions := [[]; [-1; 0]; [-1; 0]; [-1; 0]];
     point_region := [1; 2; 3] |}.

(** The 3 x 3 grid with its centre given a second time. *)
Definition grid3x3_repeat : list (Q * Q) := grid3x3 ++ [pt 15 15].

(** Its diagram: the one of the grid, with the second copy of the centre
    given the region of the first. *)
Definition diagram3x3_repeat : Diagram (Q * Q) :=
  {| vertices := vertices diagram3x3;
     regions := regions diagram3x3;
     point_region := point_region diagram3x3 ++ [5] |}.

(** Two points, which no diagram construction accepts. *)
Definition two_points : list (Q * Q) := [pt 0 0; pt 10 0].

Definition Voronoi (points : list (Q * Q)) : result (Diagram (Q * Q)) :=
  if all_collinear points then Raise InputValidityError
  else if same_points points grid3x3 then Ok diagram3x3
  else if same_points points grid4x3 then Ok diagram4x3
  else if same_points points triangle then Ok diagram_triangle
  else if same_points points grid3x3_repeat then Ok diagram3x3_repeat
  else Raise GeometryError.

(** What makes a diagram the Voronoi diagram of a point set, as far as
    the vertices go: every finite vertex of a generator's region is at
    least as close to that generator as to any other. *)
Definition dist2 (p q : Q * Q) : Q :=
  ((p.1 - q.1) * (p.1 - q.1) + (p.2 - q.2) * (p.2 - q.2))%Q.

Definition region_vertices_nearest (points : list (Q * Q)) (vor : Diagram (Q * Q)) : bool :=
  forallb (fun '(p, r) =>
    match py_index (regions vor) r with
    | Ok region =>
        forallb (fun v =>
          if v =? -1 then true
          else match py_index (vertices vor) v with
               | Ok c => forallb (fun q => Qle_bool (dist2 c p) (dist2 c q)) points
               | Raise _ => false
               end) region
    | Raise _ => false
    end) (zip points (point_region vor)).

Definition crs_utm : string := "EPSG:31984".

(** The square of side 30 around the 3 x 3 grid. *)
Definition square30 : GeoDataFrame (list Box) string :=
  {| geometry := [[box 0 0 30 30]]; crs := crs_utm |}.

(** A study area that cuts the second inner cell of the 4 x 3 grid. *)
Definition strip25 : GeoDataFrame (list Box) string :=
  {| geometry := [[box 0 0 25 30]]; crs := crs_utm |}.

(** No boundary polygon at all. *)
Definition no_boundary : GeoDataFrame (list Box) string :=
  {| geometry := []; crs := crs_utm |}.

(** The frames the scenarios give. *)
Definition cells3x3 : GeoDataFrame (list Box) string :=
  {| geometry := [[box 10 10 20 20]]; crs := crs_utm |}.

Definition cells4x3 : GeoDataFrame (list Box) string :=
  {| geometry := [[box 10 10 20 20]; [box 20 10 25 20]]; crs := crs_utm |}.

Definition no_cells : GeoDataFrame (list Box) string :=
  {| geometry := []; crs := crs_utm |}.

(** The frame of the grid with its centre given twice. *)
Definition cells3x3_repeat : GeoDataFrame (list Box) string :=
  {| geometry := [[box 10 10 20 20]; [box 10 10 20 20]]; crs := crs_utm |}.

Definition tessellate := calcular_voronoi (CRS := string)
  Voronoi unary_union Polygon intersection is_empty.

End Sample.

(** ** Classification of a record *)

(** A cell of a [pd.Series] row: missing ([None]); a string; [pd.NA],
    whose comparisons give [pd.NA] again, a value with no truth value;
    or another scalar (a number, [NaN], a boolean), which equals no
    string and is kept with the text [str()] gives for it. *)
Inductive value : Type :=
  | VNone
  | VStr (s : string)
  | VNA
  | VOther (text : string).

(** [str(v)] *)
Definition py_str (v : value) : string :=
  match v with
  | VNone => "None"
  | VStr s => s
  | VNA => "<NA>"
  | VOther text => text
  end.

(** [v == s] for a string literal [s], taken as a condition: the truth
    value of [pd.NA == s] raises [TypeError]. *)
Definition eq_str (v : value) (s : string) : result bool :=
  match v with
  | VStr s' => Ok (String.eqb s' s)
  | VNA => Raise TypeError
  | _ => Ok false
  end.

(** [a or b] as a condition: [b] is not evaluated when [a] is true. *)
Definition or_else (a b : result bool) : result bool :=
  let* x := a in if x then Ok true else b.

(** [v in [s1, s2, ...]]: the elements are compared in turn, until one
    is equal. *)
Fixpoint in_strs (v : value) (l : list string) : result bool :=
  match l with
  | [] => Ok false
  | s :: l' => or_else (eq_str v s) (in_strs v l')
  end.

(** [termo in nome]: [termo] occurs in [nome] as a substring. *)
Fixpoint contains (termo nome : string) : bool :=
  String.prefix termo nome ||
  match nome with
  | EmptyString => false
  | String _ rest => contains termo rest
  end.

Section Classifica.

(** [str.lower]: the runtime's Unicode lower-casing. *)
Variable lower : string -> string.

(** [row.get(key)] and [row.get(key, dflt)] *)
Definition row_get (row : gmap string value) (key : string) (dflt : value) : value :=
  default dflt (row !! key).

Definition classifica_cafe (row : gmap string value) : result string :=
  let* alta :=
    or_else (eq_str (row_get row "amenity" VNone) "cafe")
      (or_else (eq_str (row_get row "shop" VNone) "coffee")
         (in_strs (row_get row "cuisine" VNone) ["cafe"; "coffee_shop"])) in
  if alta then Ok "alta"
  else
    let nome := lower (py_str (row_get row "name" (VStr ""))) in
    let* media :=
      or_else (in_strs (row_get row "shop" VNone) ["bakery"; "confectionery"])
        (or_else (in_strs (row_get row "cuisine" VNone) ["bakery"; "breakfast"; "dessert"])
           (Ok (existsb (fun termo => contains termo nome)
                  ["cafe"; "coffee"; "cafeteria"; "espresso"; "café"]))) in
    if media then Ok "media" else Ok "baixa".

End Classifica.

(** ** The map and its markers *)

Section Mapa.

Context {Coord : Type}.

(** What the code reads of [row.geometry]: [None]; a float [NaN], which
    some versions of pandas hand the loop for a missing geometry, true
    as a condition and without a [geom_type]; an empty geometry, which
    is false as a condition; a point that is not empty, with its [x]
    and [y]; a geometry of another type that is not empty. *)
Inductive geometry_cell : Type :=
  | GeomNone
  | GeomNaN
  | GeomEmpty
  | GeomPoint (x y : Coord)
  | GeomOther.

(** A row of [cafes_gdf]: its cells by column label, and its geometry. *)
Record marker_row : Type := {
  cells : gmap string value;
  row_geometry : geometry_cell
}.

(** A [folium.Marker] with its [Popup] and [Icon]. *)
Record marker : Type := {
  location : Coord * Coord;
  popup : string;
  popup_max_width : Z;
  tooltip : value;
  icon_color : string;
  icon : string;
  icon_prefix : string
}.

(** A [folium.Map]: its settings and the markers added to it. *)
Record folium_map : Type := {
  map_location : Coord * Coord;
  map_zoom_start : Z;
  map_tiles : string;
  children : list marker
}.

(** An omitted [zoom_start] or [tiles] is [None] and takes the default. *)
Definition criar_mapa_base (center_lat center_lon : Coord)
    (zoom_start : option Z) (tiles : option string) : folium_map :=
  {| map_location := (center_lat, center_lon);
     map_zoom_start := default 12 zoom_start;
     map_tiles := default "OpenStreetMap" tiles;
     children := [] |}.

(** [col in row.index] *)
Definition in_index (row : marker_row) (col : string) : bool :=
  match cells row !! col with
  | Some _ => true
  | None => false
  end.

(** ["<br>".join([f"<b>{col}:</b> {row.get(col, 'N/A')}"
                  for col in popup_cols if col in row.index])] *)
Definition popup_text (row : marker_row) (popup_cols : list string) : string :=
  String.concat "<br>"
    (map (fun col => "<b>" +:+ col +:+ ":</b> " +:+
                     py_str (row_get (cells row) col (VStr "N/A")))
         (List.filter (in_index row) popup_cols)).

(** The dictionary of colours. *)
Definition cores : gmap string string :=
  <["alta" := "green"]> (<["media" := "orange"]> (<["baixa" := "red"]> ∅)).

(** [{...}.get(row.get('confianca_cafe', 'baixa'), 'gray')]: only a
    string can be a key of the dictionary. *)
Definition marker_colour (row : marker_row) : string :=
  match row_get (cells row) "confianca_cafe" (VStr "baixa") with
  | VStr tag => default "gray" (cores !! tag)
  | _ => "gray"
  end.

Definition make_marker (popup_cols : list string) (row : marker_row) (x y : Coord)
  : marker :=
  {| location := (y, x);
     popup := popup_text row popup_cols;
     popup_max_width := 300;
     tooltip := row_get (cells row) "name" (VStr "Café");
     icon_color := marker_colour row;
     icon := "coffee";
     icon_prefix := "fa" |}.

(** [Marker(...).add_to(mapa)] *)
Definition add_to (m : marker) (mapa : folium_map) : folium_map :=
  {| map_location := map_location mapa;
     map_zoom_start := map_zoom_start mapa;
     map_tiles := map_tiles mapa;
     children := children mapa ++ [m] |}.

(** The body of the loop over [cafes_gdf.iterrows()]:
    [if row.geometry and row.geometry.geom_type == 'Point'] raises
    [AttributeError] on a [NaN]. *)
Definition marcador (popup_cols : list string) (mapa : folium_map) (row : marker_row)
  : result folium_map :=
  match row_geometry row with
  | GeomPoint x y => Ok (add_to (make_marker popup_cols row x y) mapa)
  | GeomNaN => Raise AttributeError
  | _ => Ok mapa
  end.

Fixpoint marcadores_loop (popup_cols : list string) (mapa : folium_map)
    (rows : list marker_row) : result folium_map :=
  match rows with
  | [] => Ok mapa
  | row :: rest =>
      let* mapa' := marcador popup_cols mapa row in
      marcadores_loop popup_cols mapa' rest
  end.

Definition adicionar_marcadores_cafes (mapa : folium_map) (cafes_gdf : list marker_row)
    (popup_cols : option (list string)) : result folium_map :=
  let popup_cols := default ["name"; "confianca_cafe"] popup_cols in
  marcadores_loop popup_cols mapa cafes_gdf.


End Mapa.

Arguments geometry_cell Coord : clear implicits.
Arguments marker_row Coord : clear implicits.
Arguments marker Coord : clear implicits.
Arguments folium_map Coord : clear implicits.

(** ** More scenarios *)

Module Scenarios.

Import Sample.

(** A diagram whose second point names a region past the end. *)
Definition diagram_stale : Diagram (Q * Q) :=
  {| vertices := vertices diagram3x3;
     regions := regions diagram3x3;
     point_region := [5; 10; 1] |}.

(** A diagram whose third point has no region of its own: scipy marks
    such a point with [-1]. *)
Definition diagram_unassigned : Diagram (Q * Q) :=
  {| vertices := vertices diagram3x3;
     regions := [[]; [-1; 0]; [0; 1; 3; 2]];
     point_region := [1; 2; -1] |}.

Definition cafe_row : marker_row Q :=
  {| cells := <["name" := VStr "Café Central"]>
                (<["amenity" := VStr "cafe"]>
                   (<["confianca_cafe" := VStr "alta"]> ∅));
     row_geometry := GeomPoint (-385 # 10)%Q (-37 # 10)%Q |}.

Definition bakery_row : marker_row Q :=
  {| cells := <["shop" := VStr "bakery"]> (<["confianca_cafe" := VStr "media"]> ∅);
     row_geometry := GeomOther |}.

Definition untagged_row : marker_row Q :=
  {| cells := <["opening_hours" := VStr "24/7"]> ∅;
     row_geometry := GeomPoint (-38 # 1)%Q (-4 # 1)%Q |}.


(** A record whose [shop] cell is [pd.NA]. *)
Definition na_record : gmap string value :=
  <["shop" := VNA]> (<["name" := VStr "Café Central"]> ∅).

End Scenarios.

(** * Properties *)

(** ** The error monad and Python indexing *)

Lemma bind_Ok {A B : Type} (m : result A) (k : A -> result B) (b : B) :
  bind m k = Ok b <-> exists a, m = Ok a /\ k a = Ok b.
Proof.
  destruct m as [a|e]; simpl; split.
  - intros H. exists a. auto.
  - intros (a' & Ha & Hk). congruence.
  - discriminate.
  - intros (a' & Ha & _). discriminate.
Qed.

Lemma traverse_Forall2 {A B : Type} (f : A -> result B) (l : list A) (ys : list B) :
  traverse f l = Ok ys <-> Forall2 (fun x y => f x = Ok y) l ys.
Proof.
  revert ys. induction l as [|x l IH]; intros ys; simpl.
  - split.
    + intros [= <-]. constructor.
    + intros H. inversion H. reflexivity.
  - rewrite bind_Ok. split.
    + intros (y & Hy & H). apply bind_Ok in H as (ys' & Hys & [= <-]).
      constructor; [exact Hy | apply IH, Hys].
    + intros H. inversion H as [|? y ? ys' Hy Hrest]; subst.
      exists y. split; [exact Hy|].
      apply bind_Ok. exists ys'. split; [apply IH, Hrest | reflexivity].
Qed.

Lemma traverse_total {A B : Type} (f : A -> result B) (l : list A) :
  Forall (fun x => exists y, f x = Ok y) l -> exists ys, traverse f l = Ok ys.
Proof.
  induction 1 as [|x l [y Hy] _ [ys Hys]]; simpl.
  - eexists; reflexivity.
  - rewrite Hy, Hys. simpl. eexists; reflexivity.
Qed.

Lemma py_index_in_range {A : Type} (l : list A) (i : Z) :
  0 <= i < Z.of_nat (length l) -> exists x, py_index l i = Ok x /\ l !! Z.to_nat i = Some x.
Proof.
  intros Hi. unfold py_index.
  destruct (Z.ltb_spec i 0) as [?|_]; [lia|].
  destruct (Z.leb_spec 0 i) as [_|?]; [|lia].
  destruct (Z.ltb_spec i (Z.of_nat (length l))) as [_|?]; [|lia].
  simpl. destruct (lookup_lt_is_Some_2 l (Z.to_nat i)) as [x Hx]; [lia|].
  rewrite Hx. eauto.
Qed.

Example py_index_last : py_index [10; 20; 30] (-1) = Ok 30.
Proof. reflexivity. Qed.

Example py_index_first : py_index [10; 20; 30] (-3) = Ok 10.
Proof. reflexivity. Qed.

Example py_index_past_end :
  py_index [10; 20; 30] 3 = Raise IndexError /\
  py_index [10; 20; 30] (-4) = Raise IndexError.
Proof. split; reflexivity. Qed.

Lemma skipped_infinite (region : list Z) : (-1) ∈ region -> skipped region = true.
Proof.
  intros Hin. destruct region as [|v region]; [reflexivity|].
  unfold skipped. apply existsb_exists. exists (-1). split.
  - apply list_elem_of_In, Hin.
  - reflexivity.
Qed.

Lemma skipped_false (region : list Z) :
  skipped region = false -> region <> [] /\ (-1) ∉ region.
Proof.
  intros H. split.
  - intros ->. discriminate.
  - intros Hin. apply skipped_infinite in Hin. congruence.
Qed.

(** ** The loop *)

Section Loop.

Context {Coord Geom CRS : Type}.
Variable Voronoi : list Coord -> result (Diagram Coord).
Variable unary_union : list Geom -> result Geom.
Variable Polygon : list Coord -> result Geom.
Variable intersection : Geom -> Geom -> result Geom.
Variable is_empty : Geom -> bool.

Local Abbreviation cell := (region_cell Polygon intersection is_empty).
Local Abbreviation loop := (voronoi_loop Polygon intersection is_empty).
Local Abbreviation gen_cell := (generator_cell Polygon intersection is_empty).
Local Abbreviation call :=
  (calcular_voronoi (CRS:=CRS) Voronoi unary_union Polygon intersection is_empty).

(** The loop appends the cells of its iterations, in order. *)
Lemma voronoi_loop_traverse (vor : Diagram Coord) (b : Geom) (rs : list Z) (acc : list Geom) :
  loop vor b rs acc =
  (let* cells := traverse (cell vor b) rs in Ok (acc ++ appended cells)).
Proof.
  revert acc. induction rs as [|r rs IH]; intros acc; simpl.
  - rewrite app_nil_r. reflexivity.
  - destruct (cell vor b r) as [[g|]|e]; simpl; [| |reflexivity].
    + rewrite IH. destruct (traverse (cell vor b) rs) as [cells|e]; simpl;
        [rewrite <- app_assoc|]; reflexivity.
    + rewrite IH. destruct (traverse (cell vor b) rs) as [cells|e]; reflexivity.
Qed.

Lemma voronoi_loop_app (vor : Diagram Coord) (b : Geom) (rs1 rs2 : list Z) (acc : list Geom) :
  loop vor b (rs1 ++ rs2) acc =
  (let* acc' := loop vor b rs1 acc in loop vor b rs2 acc').
Proof.
  revert acc. induction rs1 as [|r rs1 IH]; intros acc; simpl; [reflexivity|].
  destruct (cell vor b r) as [c|e]; simpl; [apply IH | reflexivity].
Qed.

Lemma calcular_voronoi_Ok (cafe_coords : list Coord) (boundary_gdf out : GeoDataFrame Geom CRS) :
  call cafe_coords boundary_gdf = Ok out <->
  exists vor boundary cells,
    Voronoi cafe_coords = Ok vor /\
    unary_union (geometry boundary_gdf) = Ok boundary /\
    Forall2 (fun r c => cell vor boundary r = Ok c) (point_region vor) cells /\
    out = {| geometry := appended cells; crs := crs boundary_gdf |}.
Proof.
  unfold calcular_voronoi. split.
  - intros H.
    apply bind_Ok in H as (vor & Hvor & H).
    apply bind_Ok in H as (boundary & Hb & H).
    apply bind_Ok in H as (polys & Hloop & [= <-]).
    rewrite voronoi_loop_traverse in Hloop.
    apply bind_Ok in Hloop as (cells & Hcells & [= <-]).
    exists vor, boundary, cells. repeat split; try assumption.
    apply traverse_Forall2, Hcells.
  - intros (vor & boundary & cells & Hvor & Hb & Hcells & ->).
    rewrite Hvor, Hb. simpl. rewrite voronoi_loop_traverse.
    apply traverse_Forall2 in Hcells. rewrite Hcells. reflexivity.
Qed.

(** An iteration over a region that uses the vertex at infinity
    appends nothing, before any polygon is built. *)
Lemma region_cell_infinite (vor : Diagram Coord) (b : Geom) (r : Z) (region : list Z) :
  py_index (regions vor) r = Ok region -> (-1) ∈ region -> cell vor b r = Ok None.
Proof.
  intros Hr Hin. unfold region_cell. rewrite Hr. simpl.
  rewrite (skipped_infinite _ Hin). reflexivity.
Qed.

Lemma generator_cell_lookup (vor : Diagram Coord) (b : Geom) (cells : list (option Geom)) :
  Forall2 (fun r c => cell vor b r = Ok c) (point_region vor) cells ->
  forall i c, cells !! i = Some c <-> gen_cell vor b i = Ok c.
Proof.
  intros HF i c. unfold generator_cell. split.
  - intros Hc.
    destruct (Forall2_lookup_r _ _ _ _ _ HF Hc) as (r & Hr & Hcell).
    rewrite Hr. exact Hcell.
  - destruct (point_region vor !! i) as [r|] eqn:Hr; [|discriminate].
    intros Hcell.
    destruct (Forall2_lookup_l _ _ _ _ _ HF Hr) as (c' & Hc' & Hcell').
    congruence.
Qed.

(** *** The appended cells and the iterations they come from *)

Lemma survivors_ge (cells : list (option Geom)) (start : nat) :
  Forall (fun i => (start <= i)%nat) (survivors cells start).
Proof.
  revert start. induction cells as [|[g|] cells IH]; intros start; simpl.
  - constructor.
  - constructor; [lia|]. eapply Forall_impl; [apply IH|]. simpl. lia.
  - eapply Forall_impl; [apply IH|]. simpl. lia.
Qed.

Lemma survivors_sorted (cells : list (option Geom)) (start : nat) :
  StronglySorted lt (survivors cells start).
Proof.
  revert start. induction cells as [|[g|] cells IH]; intros start; simpl.
  - constructor.
  - constructor; [apply IH|].
    eapply Forall_impl; [apply survivors_ge|]. simpl. lia.
  - apply IH.
Qed.

Lemma survivors_appended (cells : list (option Geom)) (start : nat) :
  Forall2 (fun i g => (start <= i)%nat /\ cells !! (i - start)%nat = Some (Some g))
          (survivors cells start) (appended cells).
Proof.
  revert start. induction cells as [|[g|] cells IH]; intros start; simpl.
  - constructor.
  - constructor.
    + split; [lia|]. replace (start - start)%nat with 0%nat by lia. reflexivity.
    + eapply Forall2_impl; [apply IH|]. simpl. intros i g' [Hle Hlk]. split; [lia|].
      replace (i - start)%nat with (S (i - S start)) by lia. exact Hlk.
  - eapply Forall2_impl; [apply IH|]. simpl. intros i g' [Hle Hlk]. split; [lia|].
    replace (i - start)%nat with (S (i - S start)) by lia. exact Hlk.
Qed.

Lemma survivors_complete (cells : list (option Geom)) (start k : nat) (g : Geom) :
  cells !! k = Some (Some g) -> (start + k)%nat ∈ survivors cells start.
Proof.
  revert start k. induction cells as [|c cells IH]; intros start k; [discriminate|].
  destruct k as [|k]; simpl.
  - intros [= ->]. replace (start + 0)%nat with start by lia. left.
  - intros Hk. replace (start + S k)%nat with (S start + k)%nat by lia.
    destruct c; [right|]; apply IH, Hk.
Qed.

Lemma appended_length (cells : list (option Geom)) :
  (length (appended cells) <= length cells)%nat.
Proof. induction cells as [|[g|] cells IH]; simpl; lia. Qed.

Lemma appended_length_lt (cells : list (option Geom)) (i : nat) :
  cells !! i = Some None -> (length (appended cells) < length cells)%nat.
Proof.
  revert i. induction cells as [|c cells IH]; intros i; [discriminate|].
  destruct i as [|i]; simpl.
  - intros [= ->]. pose proof (appended_length cells). lia.
  - intros Hi. specialize (IH _ Hi). destruct c; simpl; lia.
Qed.

End Loop.

(** ** The tessellation *)

Section Tessellation.

Context {Coord Geom CRS : Type}.
Variable Voronoi : list Coord -> result (Diagram Coord).
Variable unary_union : list Geom -> result Geom.
Variable Polygon : list Coord -> result Geom.
Variable intersection : Geom -> Geom -> result Geom.
Variable is_empty : Geom -> bool.

Local Abbreviation cell := (region_cell Polygon intersection is_empty).
Local Abbreviation loop := (voronoi_loop Polygon intersection is_empty).
Local Abbreviation gen_cell := (generator_cell Polygon intersection is_empty).
Local Abbreviation call :=
  (calcular_voronoi (CRS:=CRS) Voronoi unary_union Polygon intersection is_empty).

(** C1.  A generator whose region uses the vertex at infinity contributes
    nothing: its iteration appends no cell, whatever the polygon
    constructor and the intersection of the kernel would do (they are
    not called, so nothing is clipped against a frame), and the call
    gives what the loop gives with that iteration left out. *)
Theorem unbounded_region_skipped (cafe_coords : list Coord)
    (boundary_gdf : GeoDataFrame Geom CRS) (vor : Diagram Coord) (i : nat) :
  Voronoi cafe_coords = Ok vor ->
  unbounded vor i ->
  (forall boundary, gen_cell vor boundary i = Ok None) /\
  call cafe_coords boundary_gdf =
    (let* boundary := unary_union (geometry boundary_gdf) in
     let* voronoi_polygons := loop vor boundary (delete i (point_region vor)) [] in
     Ok {| geometry := voronoi_polygons; crs := crs boundary_gdf |}).
Proof.
  intros Hvor (region & Hreg & Hin).
  unfold generator_region in Hreg.
  destruct (point_region vor !! i) as [r|] eqn:Hi; [|discriminate].
  split.
  - intros boundary. unfold generator_cell. rewrite Hi.
    eapply region_cell_infinite; eassumption.
  - unfold calcular_voronoi. rewrite Hvor. simpl.
    destruct (unary_union (geometry boundary_gdf)) as [boundary|e]; simpl; [|reflexivity].
    assert (loop vor boundary (point_region vor) [] =
            loop vor boundary (delete i (point_region vor)) []) as ->; [|reflexivity].
    transitivity (loop vor boundary
                    (take i (point_region vor) ++ r :: drop (S i) (point_region vor)) []).
    { rewrite (take_drop_middle _ _ _ Hi). reflexivity. }
    rewrite delete_take_drop, !voronoi_loop_app.
    destruct (loop vor boundary (take i (point_region vor)) []) as [acc|e]; simpl;
      [|reflexivity].
    rewrite (region_cell_infinite _ _ _ _ _ _ _ Hreg Hin). reflexivity.
Qed.

(** The cells of the frame, in terms of the generators they come from. *)
Lemma calcular_voronoi_generators (cafe_coords : list Coord)
    (boundary_gdf out : GeoDataFrame Geom CRS) :
  call cafe_coords boundary_gdf = Ok out ->
  exists vor boundary gens,
    Voronoi cafe_coords = Ok vor /\
    unary_union (geometry boundary_gdf) = Ok boundary /\
    StronglySorted lt gens /\
    Forall2 (fun g c => gen_cell vor boundary g = Ok (Some c)) gens (geometry out) /\
    (forall i c, gen_cell vor boundary i = Ok (Some c) -> i ∈ gens).
Proof.
  intros H. apply calcular_voronoi_Ok in H as (vor & boundary & cells & Hvor & Hb & HF & ->).
  exists vor, boundary, (survivors cells 0). simpl.
  split; [exact Hvor|]. split; [exact Hb|]. split; [apply survivors_sorted|]. split.
  - eapply Forall2_impl; [apply survivors_appended|]. simpl.
    intros i g [_ Hlk]. replace (i - 0)%nat with i in Hlk by lia.
    eapply generator_cell_lookup; eassumption.
  - intros i c Hc. eapply generator_cell_lookup in Hc; [|eassumption].
    apply (survivors_complete _ 0) in Hc. exact Hc.
Qed.

(** C2 (amended).  The frame holds the clipped cells alone, labelled by
    their row positions 0, 1, ..: they are the cells of the generators
    that have one, each once and in input point order, but the index of
    the generator is not part of the output. *)
Theorem cells_in_point_order (cafe_coords : list Coord)
    (boundary_gdf out : GeoDataFrame Geom CRS) :
  call cafe_coords boundary_gdf = Ok out ->
  exists vor boundary gens,
    Voronoi cafe_coords = Ok vor /\
    unary_union (geometry boundary_gdf) = Ok boundary /\
    StronglySorted lt gens /\
    Forall2 (fun g c => gen_cell vor boundary g = Ok (Some c)) gens (geometry out) /\
    (forall i c, gen_cell vor boundary i = Ok (Some c) -> i ∈ gens) /\
    gdf_rows out = zip (seq 0 (length gens)) (geometry out).
Proof.
  intros H.
  destruct (calcular_voronoi_generators _ _ _ H)
    as (vor & boundary & gens & Hvor & Hb & Hsorted & HF & Hall).
  exists vor, boundary, gens. repeat (split; [assumption|]).
  unfold gdf_rows. rewrite (Forall2_length _ _ _ HF). reflexivity.
Qed.

(** C10.  The frame the call returns has the coordinate reference system
    of the boundary frame. *)
Theorem crs_of_boundary (cafe_coords : list Coord)
    (boundary_gdf out : GeoDataFrame Geom CRS) :
  call cafe_coords boundary_gdf = Ok out -> crs out = crs boundary_gdf.
Proof.
  intros H. apply calcular_voronoi_Ok in H as (vor & boundary & cells & _ & _ & _ & ->).
  reflexivity.
Qed.

(** A cell that is appended is a polygon of the diagram cut by the
    boundary, and is not empty. *)
Lemma region_cell_polygon (vor : Diagram Coord) (b : Geom) (r : Z) (c : Geom) :
  cell vor b r = Ok (Some c) ->
  exists g, region_polygon Polygon vor r = Ok (Some g) /\
            intersection g b = Ok c /\ is_empty c = false.
Proof.
  unfold region_cell, region_polygon. intros H.
  apply bind_Ok in H as (region & -> & H). simpl.
  destruct (skipped region); [discriminate|].
  apply bind_Ok in H as (ring & -> & H). simpl.
  apply bind_Ok in H as (g & -> & H). simpl.
  apply bind_Ok in H as (c' & Hc & H).
  destruct (is_empty c') eqn:He; [discriminate|].
  injection H as <-. exists g. auto.
Qed.

Lemma generator_cell_polygon (vor : Diagram Coord) (b : Geom) (i : nat) (c : Geom) :
  gen_cell vor b i = Ok (Some c) ->
  exists g, generator_polygon Polygon vor i = Ok (Some g) /\
            intersection g b = Ok c /\ is_empty c = false.
Proof.
  unfold generator_cell, generator_polygon.
  destruct (point_region vor !! i) as [r|]; [apply region_cell_polygon | discriminate].
Qed.

(** On a well-formed diagram whose rings the polygon constructor
    accepts, an iteration raises only if the intersection does. *)
Lemma region_cell_returns (vor : Diagram Coord) (b : Geom) (r : Z) (P : Geom -> Prop) :
  well_formed vor ->
  rings_accepted Polygon vor ->
  r ∈ point_region vor ->
  (forall g, exists c, intersection g b = Ok c /\ P c) ->
  exists oc, cell vor b r = Ok oc /\
    forall c, oc = Some c -> P c /\ is_empty c = false.
Proof.
  intros [Hpr Hreg] Hrings Hr Hinter.
  rewrite Forall_forall in Hpr. specialize (Hpr _ Hr).
  destruct (py_index_in_range _ _ Hpr) as (region & Hregion & Hlk).
  unfold region_cell. rewrite Hregion. simpl.
  destruct (skipped region) eqn:Hskip.
  { exists None. split; [reflexivity | discriminate]. }
  pose proof (Forall_lookup_1 _ _ _ _ Hreg Hlk Hskip) as Hvs.
  pose proof (Forall_lookup_1 _ _ _ _ Hrings Hlk Hskip) as Hacc.
  destruct (traverse_total (py_index (vertices vor)) region) as [ring Hring].
  { eapply Forall_impl; [exact Hvs|]. simpl. intros v Hv.
    destruct (py_index_in_range _ _ Hv) as (x & Hx & _). eauto. }
  rewrite Hring. simpl.
  destruct (Hacc _ Hring) as [g Hg]. rewrite Hg. simpl.
  destruct (Hinter g) as (c & Hc & HP). rewrite Hc. simpl.
  destruct (is_empty c) eqn:He.
  - exists None. split; [reflexivity | discriminate].
  - exists (Some c). split; [reflexivity|]. intros c' [= <-]. auto.
Qed.

Lemma cells_return (vor : Diagram Coord) (b : Geom) (P : Geom -> Prop) :
  well_formed vor ->
  rings_accepted Polygon vor ->
  (forall g, exists c, intersection g b = Ok c /\ P c) ->
  exists cells,
    Forall2 (fun r c => cell vor b r = Ok c) (point_region vor) cells /\
    Forall (fun oc => forall c, oc = Some c -> P c /\ is_empty c = false) cells.
Proof.
  intros Hwf Hrings Hinter.
  assert (Forall (fun r => r ∈ point_region vor) (point_region vor)) as Hin
    by (apply Forall_forall; auto).
  revert Hin. generalize (point_region vor) at 2 3 as rs.
  induction rs as [|r rs IH]; intros Hin.
  - exists []. split; constructor.
  - apply Forall_cons in Hin as [Hr Hin].
    destruct (region_cell_returns vor b r P Hwf Hrings Hr Hinter) as (oc & Hoc & HP).
    destruct (IH Hin) as (cells & Hcells & HPs).
    exists (oc :: cells). split; constructor; assumption.
Qed.

(** C7.  With no boundary polygon the resolver gives an empty region
    (that much is the kernel's), every intersection with it is empty,
    and the call returns a frame without cells. *)
Theorem empty_boundary_no_cells (cafe_coords : list Coord) (vor : Diagram Coord)
    (reference : CRS) :
  Voronoi cafe_coords = Ok vor ->
  well_formed vor ->
  rings_accepted Polygon vor ->
  union_of_nothing_empty unary_union is_empty ->
  intersection_with_empty intersection is_empty ->
  call cafe_coords {| geometry := []; crs := reference |} =
    Ok {| geometry := []; crs := reference |}.
Proof.
  intros Hvor Hwf Hrings (e & He & Hempty) Hinter.
  destruct (cells_return vor e (fun c => is_empty c = true) Hwf Hrings)
    as (cells & Hcells & Hnone).
  { intros g. apply Hinter, Hempty. }
  apply calcular_voronoi_Ok. exists vor, e, cells.
  repeat (split; [assumption|]). simpl. f_equal.
  clear Hcells. induction Hnone as [|oc cells Hoc _ IH]; [reflexivity|].
  destruct oc as [c|]; simpl; [|exact IH].
  destruct (Hoc c eq_refl) as [Ht Hf]. congruence.
Qed.

(** No more cells than iterations, and fewer when some generator's
    region is unbounded. *)
Lemma cells_count (cafe_coords : list Coord) (boundary_gdf out : GeoDataFrame Geom CRS)
    (vor : Diagram Coord) :
  Voronoi cafe_coords = Ok vor ->
  call cafe_coords boundary_gdf = Ok out ->
  (length (geometry out) <= length (point_region vor))%nat /\
  ((exists i, unbounded vor i) ->
   (length (geometry out) < length (point_region vor))%nat).
Proof.
  intros Hvor H.
  apply calcular_voronoi_Ok in H as (vor' & boundary & cells & Hvor' & Hb & HF & ->).
  assert (vor' = vor) as -> by congruence. simpl.
  rewrite (Forall2_length _ _ _ HF). split; [apply appended_length|].
  intros (i & region & Hreg & Hin).
  apply (appended_length_lt _ i).
  eapply generator_cell_lookup; [exact HF|].
  unfold generator_region in Hreg. unfold generator_cell.
  destruct (point_region vor !! i) as [r|]; [|discriminate].
  eapply region_cell_infinite; eassumption.
Qed.

(** *** Cells as point sets *)

Variable covers : Geom -> Q * Q -> Prop.

Lemma interior_mono (c g : Geom) :
  (forall p, covers c p -> covers g p) ->
  forall p, interior covers c p -> interior covers g p.
Proof.
  intros Hsub p (eps & Heps & Hball). exists eps. split; [exact Heps|].
  intros q Hx Hy. apply Hsub, Hball; assumption.
Qed.

Lemma sorted_lt_NoDup (l : list nat) : StronglySorted lt l -> NoDup l.
Proof.
  induction 1 as [|x l _ IH Hx]; constructor; [|exact IH].
  intros Hin. rewrite Forall_forall in Hx. specialize (Hx _ Hin). lia.
Qed.

(** C4.  Every cell of the frame covers only points of the boundary:
    each is the intersection of a polygon with the union of the boundary
    polygons. *)
Theorem cells_within_boundary (cafe_coords : list Coord)
    (boundary_gdf out : GeoDataFrame Geom CRS) :
  intersection_within intersection covers ->
  union_within unary_union covers ->
  call cafe_coords boundary_gdf = Ok out ->
  forall c, c ∈ geometry out ->
    forall p, covers c p -> exists g, g ∈ geometry boundary_gdf /\ covers g p.
Proof.
  intros Hinter Hunion H c Hc p Hp.
  destruct (calcular_voronoi_generators _ _ _ H)
    as (vor & boundary & gens & _ & Hb & _ & HF & _).
  apply list_elem_of_lookup in Hc as [k Hk].
  destruct (Forall2_lookup_r _ _ _ _ _ HF Hk) as (i & _ & Hcell).
  apply generator_cell_polygon in Hcell as (g & _ & Hg & _).
  destruct (Hinter _ _ _ Hg p Hp) as [_ Hpb].
  exact (Hunion _ _ Hb p Hpb).
Qed.


End Tessellation.

(** ** The tessellation of points of the plane *)

Lemma same_point_sym (p q : Q * Q) : same_point p q = same_point q p.
Proof.
  unfold same_point.
  assert (forall a b : Q, Qeq_bool a b = Qeq_bool b a) as Hsym.
  { intros a b. destruct (Qeq_bool a b) eqn:Hab, (Qeq_bool b a) eqn:Hba; try reflexivity.
    - apply Qeq_bool_iff in Hab. symmetry in Hab. apply Qeq_bool_iff in Hab. congruence.
    - apply Qeq_bool_iff in Hba. symmetry in Hba. apply Qeq_bool_iff in Hba. congruence. }
  rewrite (Hsym p.1 q.1), (Hsym p.2 q.2). reflexivity.
Qed.

Lemma all_distinct_lookup (l : list (Q * Q)) (i j : nat) (pi pj : Q * Q) :
  all_distinct l = true -> i <> j ->
  l !! i = Some pi -> l !! j = Some pj -> same_point pi pj = false.
Proof.
  assert (forall (a : Q * Q) l' k q,
            existsb (same_point a) l' = false -> l' !! k = Some q ->
            same_point a q = false) as Hfresh.
  { intros a l' k q Hex Hq. destruct (same_point a q) eqn:Haq; [|reflexivity].
    rewrite <- Hex. symmetry. apply existsb_exists. exists q. split; [|exact Haq].
    apply list_elem_of_In, list_elem_of_lookup. eauto. }
  revert i j. induction l as [|a l IH]; intros i j Hall Hij Hi Hj; [discriminate|].
  simpl in Hall. apply andb_true_iff in Hall as [Ha Hall].
  apply negb_true_iff in Ha.
  destruct i as [|i], j as [|j]; simpl in Hi, Hj.
  - congruence.
  - injection Hi as <-. exact (Hfresh _ _ _ _ Ha Hj).
  - injection Hj as <-. rewrite same_point_sym. exact (Hfresh _ _ _ _ Ha Hi).
  - apply (IH i j Hall); [congruence | assumption | assumption].
Qed.

Section PlaneTessellation.

Context {Geom CRS : Type}.
Variable Voronoi : list (Q * Q) -> result (Diagram (Q * Q)).
Variable unary_union : list Geom -> result Geom.
Variable Polygon : list (Q * Q) -> result Geom.
Variable intersection : Geom -> Geom -> result Geom.
Variable is_empty : Geom -> bool.
Variable covers : Geom -> Q * Q -> Prop.

(** A generator that has a cell is one of the points. *)
Lemma generator_point (cafe_coords : list (Q * Q)) (vor : Diagram (Q * Q))
    (boundary : Geom) (i : nat) (c : option Geom) :
  length (point_region vor) = length cafe_coords ->
  generator_cell Polygon intersection is_empty vor boundary i = Ok c ->
  exists p, cafe_coords !! i = Some p.
Proof.
  intros Hlen Hc. unfold generator_cell in Hc.
  destruct (point_region vor !! i) as [r|] eqn:Hr; [|discriminate].
  apply lookup_lt_Some in Hr. apply lookup_lt_is_Some_2. lia.
Qed.

Local Abbreviation call :=
  (calcular_voronoi (CRS:=CRS) Voronoi unary_union Polygon intersection is_empty).

(** C5 (amended).  When no point is given twice, two different cells
    of the frame have no interior point in common: they come from
    different generators, which then lie at different places and have
    polygons with disjoint interiors, and clipping only removes
    points. *)
Theorem cells_interiors_disjoint (cafe_coords : list (Q * Q))
    (boundary_gdf out : GeoDataFrame Geom CRS) :
  all_distinct cafe_coords = true ->
  region_per_point Voronoi cafe_coords ->
  separate_generators_disjoint Voronoi Polygon covers cafe_coords ->
  intersection_within intersection covers ->
  call cafe_coords boundary_gdf = Ok out ->
  forall k l ck cl, k <> l ->
    geometry out !! k = Some ck -> geometry out !! l = Some cl ->
    forall p, ~ (interior covers ck p /\ interior covers cl p).
Proof.
  intros Hdistinct Hlen Hdisj Hinter H k l ck cl Hkl Hk Hl p [Hpk Hpl].
  destruct (calcular_voronoi_generators _ _ _ _ _ _ _ _ H)
    as (vor & boundary & gens & Hvor & _ & Hsorted & HF & _).
  destruct (Forall2_lookup_r _ _ _ _ _ HF Hk) as (i & Hi & Hci).
  destruct (Forall2_lookup_r _ _ _ _ _ HF Hl) as (j & Hj & Hcj).
  assert (i <> j) as Hij.
  { intros ->. apply Hkl.
    exact (NoDup_lookup _ _ _ _ (sorted_lt_NoDup _ Hsorted) Hi Hj). }
  destruct (generator_point _ _ _ _ _ (Hlen vor Hvor) Hci) as [pi Hpi].
  destruct (generator_point _ _ _ _ _ (Hlen vor Hvor) Hcj) as [pj Hpj].
  pose proof (all_distinct_lookup _ _ _ _ _ Hdistinct Hij Hpi Hpj) as Hsep.
  apply generator_cell_polygon in Hci as (gi & Hgi & Hinti & _).
  apply generator_cell_polygon in Hcj as (gj & Hgj & Hintj & _).
  apply (Hdisj vor i j pi pj gi gj Hvor Hpi Hpj Hsep Hgi Hgj p). split.
  - apply (interior_mono covers ck gi); [|exact Hpk].
    intros q Hq. apply (Hinter _ _ _ Hinti q Hq).
  - apply (interior_mono covers cl gj); [|exact Hpl].
    intros q Hq. apply (Hinter _ _ _ Hintj q Hq).
Qed.

(** C6.  A call on N points returns at most N cells, and fewer than N
    when some point lies on the convex hull of the point set: its region
    is unbounded and is skipped. *)
Theorem fewer_cells_than_points (cafe_coords : list (Q * Q))
    (boundary_gdf out : GeoDataFrame Geom CRS) :
  region_per_point Voronoi cafe_coords ->
  hull_regions_unbounded Voronoi cafe_coords ->
  call cafe_coords boundary_gdf = Ok out ->
  (length (geometry out) <= length cafe_coords)%nat /\
  ((exists i, on_hull cafe_coords i) ->
   (length (geometry out) < length cafe_coords)%nat).
Proof.
  intros Hlen Hhull H.
  destruct (proj1 (calcular_voronoi_Ok _ _ _ _ _ _ _ _) H)
    as (vor & _ & _ & Hvor & _).
  rewrite <- (Hlen vor Hvor).
  destruct (cells_count _ _ _ _ _ _ _ _ vor Hvor H) as [Hle Hlt].
  split; [exact Hle|].
  intros [i Hi]. apply Hlt. exists i. exact (Hhull vor i Hvor Hi).
Qed.

End PlaneTessellation.

(** ** The classification *)

Lemma row_get_not_NA (row : gmap string value) (key : string) :
  row !! key <> Some VNA -> row_get row key VNone <> VNA.
Proof.
  unfold row_get. destruct (row !! key) as [v|]; simpl; congruence.
Qed.

Lemma eq_str_returns (v : value) (s : string) :
  v <> VNA -> exists b, eq_str v s = Ok b.
Proof. destruct v; simpl; eauto. congruence. Qed.

Lemma in_strs_returns (v : value) (l : list string) :
  v <> VNA -> exists b, in_strs v l = Ok b.
Proof.
  intros Hv. induction l as [|s l [b Hb]]; simpl; [eauto|].
  destruct (eq_str_returns v s Hv) as [[|] ->]; simpl; eauto.
Qed.

(** Whenever the classification returns, it returns one of the three
    tags. *)
Lemma classifica_cafe_cases (lower : string -> string) (row : gmap string value)
    (tag : string) :
  classifica_cafe lower row = Ok tag ->
  tag = "alta" \/ tag = "media" \/ tag = "baixa".
Proof.
  unfold classifica_cafe. intros H.
  apply bind_Ok in H as ([|] & _ & H); [injection H as <-; auto|].
  apply bind_Ok in H as ([|] & _ & H); injection H as <-; auto.
Qed.

(** C9 (amended).  A record whose [amenity], [shop] and [cuisine] cells
    are not [pd.NA] is classified, with one of the three tags [alta],
    [media], [baixa]. *)
Theorem classifica_cafe_tag (lower : string -> string) (row : gmap string value) :
  (forall key, key ∈ ["amenity"; "shop"; "cuisine"] -> row !! key <> Some VNA) ->
  exists tag, classifica_cafe lower row = Ok tag /\ tag ∈ ["alta"; "media"; "baixa"].
Proof.
  intros Hna.
  assert (row_get row "amenity" VNone <> VNA) as Ha by (apply row_get_not_NA, Hna; set_solver).
  assert (row_get row "shop" VNone <> VNA) as Hs by (apply row_get_not_NA, Hna; set_solver).
  assert (row_get row "cuisine" VNone <> VNA) as Hc by (apply row_get_not_NA, Hna; set_solver).
  assert (exists tag, classifica_cafe lower row = Ok tag) as [tag Htag].
  { unfold classifica_cafe, or_else.
    destruct (eq_str_returns _ "cafe" Ha) as [b1 ->].
    destruct (eq_str_returns _ "coffee" Hs) as [b2 ->].
    destruct (in_strs_returns _ ["cafe"; "coffee_shop"] Hc) as [b3 ->].
    destruct (in_strs_returns _ ["bakery"; "confectionery"] Hs) as [b4 ->].
    destruct (in_strs_returns _ ["bakery"; "breakfast"; "dessert"] Hc) as [b5 ->].
    destruct b1, b2, b3, b4, b5; simpl;
      first [ eexists; reflexivity
            | match goal with
              | |- context [if ?b then _ else _] => destruct b
              end; eexists; reflexivity ]. }
  exists tag. split; [exact Htag|].
  destruct (classifica_cafe_cases _ _ _ Htag) as [-> | [-> | ->]]; set_solver.
Qed.

(** C9, as stated: the tags are not [high], [medium], [low].  A record
    tagged [amenity = cafe] is classified [alta]. *)
Lemma classifica_cafe_not_english :
  ~ (forall (lower : string -> string) (row : gmap string value),
       exists tag, classifica_cafe lower row = Ok tag /\
                   tag ∈ ["high"; "medium"; "low"]).
Proof.
  intros H.
  destruct (H (fun s => s) {[ "amenity" := VStr "cafe" ]}) as (tag & Htag & Hin).
  vm_compute in Htag. injection Htag as <-.
  repeat (apply elem_of_cons in Hin as [Hin|Hin]; [discriminate Hin|]).
  apply elem_of_nil in Hin. exact Hin.
Qed.

(** ** The sample kernel meets the assumptions *)

Module SampleFacts.

Import Sample.

Lemma box_inter_covers (a b : Box) (p : Q * Q) :
  box_covers (box_inter a b) p -> box_covers a p /\ box_covers b p.
Proof.
  unfold box_covers, box_inter. simpl.
  rewrite !Q.max_lub_iff, !Q.min_glb_iff. tauto.
Qed.

Lemma intersection_within_sample : intersection_within intersection covers.
Proof.
  intros a b c [= <-] p Hp. unfold covers in *.
  apply Exists_exists in Hp as (x & Hx & Hcov).
  apply list_elem_of_In, filter_In in Hx as [Hx _].
  apply in_flat_map in Hx as (ba & Hba & Hx).
  apply in_map_iff in Hx as (bb & <- & Hbb).
  apply box_inter_covers in Hcov as [Ha Hb].
  split; apply Exists_exists; eexists; (split; [apply list_elem_of_In; eassumption|]);
    assumption.
Qed.

Lemma union_within_sample : union_within unary_union covers.
Proof.
  intros gs u [= <-] p Hp. unfold covers in *.
  apply Exists_exists in Hp as (x & Hx & Hcov).
  apply list_elem_of_In, in_concat in Hx as (g & Hg & Hx).
  exists g. split; [apply list_elem_of_In, Hg|].
  apply Exists_exists. exists x. split; [apply list_elem_of_In, Hx | exact Hcov].
Qed.

Lemma union_of_nothing_empty_sample : union_of_nothing_empty unary_union is_empty.
Proof. exists []. split; reflexivity. Qed.

Lemma intersection_with_empty_sample : intersection_with_empty intersection is_empty.
Proof.
  intros a e He. destruct e as [|b e]; [|discriminate].
  exists []. split; [|reflexivity].
  unfold intersection. f_equal.
  induction a as [|ba a IH]; [reflexivity | exact IH].
Qed.

Lemma Voronoi_grid3x3 : Voronoi grid3x3 = Ok diagram3x3.
Proof. vm_compute. reflexivity. Qed.

Lemma Voronoi_grid4x3 : Voronoi grid4x3 = Ok diagram4x3.
Proof. vm_compute. reflexivity. Qed.

Lemma Voronoi_triangle : Voronoi triangle = Ok diagram_triangle.
Proof. vm_compute. reflexivity. Qed.

Lemma Voronoi_grid3x3_repeat : Voronoi grid3x3_repeat = Ok diagram3x3_repeat.
Proof. vm_compute. reflexivity. Qed.

Lemma Voronoi_two_points : Voronoi two_points = Raise InputValidityError.
Proof. vm_compute. reflexivity. Qed.

(** So do the diagrams of the three points and of the grid with its
    centre given twice. *)
Lemma more_diagrams_nearest :
  region_vertices_nearest triangle diagram_triangle = true /\
  region_vertices_nearest grid3x3_repeat diagram3x3_repeat = true.
Proof. split; vm_compute; reflexivity. Qed.

(** The two diagrams put every vertex of a region nearest to the
    region's generator. *)
Lemma diagrams_nearest :
  region_vertices_nearest grid3x3 diagram3x3 = true /\
  region_vertices_nearest grid4x3 diagram4x3 = true.
Proof. split; vm_compute; reflexivity. Qed.

Ltac check_regions :=
  repeat (apply Forall_cons; split); try apply Forall_nil_2;
  try (intros Hskip; vm_compute in Hskip; discriminate Hskip).

Lemma well_formed_diagram3x3 : well_formed diagram3x3.
Proof.
  split.
  - repeat (apply Forall_cons; split); try apply Forall_nil_2; simpl; lia.
  - check_regions. intros _.
    repeat (apply Forall_cons; split); try apply Forall_nil_2; simpl; lia.
Qed.

Lemma well_formed_diagram4x3 : well_formed diagram4x3.
Proof.
  split.
  - repeat (apply Forall_cons; split); try apply Forall_nil_2; simpl; lia.
  - check_regions; intros _;
      repeat (apply Forall_cons; split); try apply Forall_nil_2; simpl; lia.
Qed.

Lemma rings_accepted_diagram3x3 : rings_accepted Polygon diagram3x3.
Proof.
  unfold rings_accepted. check_regions.
  intros _ ring Hring. vm_compute in Hring. injection Hring as <-.
  eexists. vm_compute. reflexivity.
Qed.

Lemma rings_accepted_diagram4x3 : rings_accepted Polygon diagram4x3.
Proof.
  unfold rings_accepted. check_regions;
    intros _ ring Hring; vm_compute in Hring; injection Hring as <-;
    eexists; vm_compute; reflexivity.
Qed.

Lemma covers_box (b : Box) (p : Q * Q) : covers [b] p <-> box_covers b p.
Proof.
  unfold covers. rewrite Exists_cons, Exists_nil. tauto.
Qed.

(** Two rectangles side by side, the first left of [x], the second right
    of it, share no interior point. *)
Lemma interiors_apart (a b : Box) (x : Q) (p : Q * Q) :
  (x1 a <= x)%Q -> (x <= x0 b)%Q ->
  ~ (interior covers [a] p /\ interior covers [b] p).
Proof.
  destruct p as [px py].
  intros Ha Hb [(eps & Heps & Hball) (eps' & Heps' & Hball')].
  assert (box_covers a (px + eps * (1 # 2), py)%Q) as Hq.
  { apply covers_box, Hball; cbn [fst snd]; apply Qabs_Qlt_condition; split; lra. }
  assert (box_covers b (px, py)) as Hp.
  { apply covers_box, Hball'; cbn [fst snd]; apply Qabs_Qlt_condition; split; lra. }
  unfold box_covers in Hq, Hp. cbn [fst snd] in Hq, Hp. lra.
Qed.

Lemma polygons_diagram4x3 (i : nat) (g : list Box) :
  generator_polygon Polygon diagram4x3 i = Ok (Some g) ->
  (i = 5%nat /\ g = [box 10 10 20 20]) \/ (i = 6%nat /\ g = [box 20 10 30 20]).
Proof.
  do 13 (destruct i as [|i];
         [vm_compute; intros H; try discriminate H; injection H as <-;
          (left + right); split; reflexivity |]).
  vm_compute. discriminate.
Qed.

Lemma separate_generators_disjoint_grid4x3 :
  separate_generators_disjoint Voronoi Polygon covers grid4x3.
Proof.
  intros vor i j pi pj gi gj Hvor Hpi Hpj Hsep Hi Hj p [Hgi Hgj].
  rewrite Voronoi_grid4x3 in Hvor. injection Hvor as <-.
  apply polygons_diagram4x3 in Hi as [[-> ->]|[-> ->]];
    apply polygons_diagram4x3 in Hj as [[-> ->]|[-> ->]].
  - simpl in Hpi, Hpj. injection Hpi as <-. injection Hpj as <-.
    vm_compute in Hsep. discriminate Hsep.
  - apply (interiors_apart (box 10 10 20 20) (box 20 10 30 20) (20 # 1) p);
      [vm_compute; discriminate | vm_compute; discriminate | split; assumption].
  - apply (interiors_apart (box 10 10 20 20) (box 20 10 30 20) (20 # 1) p);
      [vm_compute; discriminate | vm_compute; discriminate | split; assumption].
  - simpl in Hpi, Hpj. injection Hpi as <-. injection Hpj as <-.
    vm_compute in Hsep. discriminate Hsep.
Qed.

Lemma region_per_point_grid4x3 : region_per_point Voronoi grid4x3.
Proof. intros vor Hvor. rewrite Voronoi_grid4x3 in Hvor. injection Hvor as <-. reflexivity. Qed.

(** The centre of the grid is an interior point of the centre's cell. *)
Lemma interior_centre : interior covers [box 10 10 20 20] (pt 15 15).
Proof.
  exists (1 # 1)%Q. split; [reflexivity|].
  intros [qx qy] Hx Hy. apply covers_box.
  apply Qabs_Qlt_condition in Hx, Hy. unfold pt, inject_Z in *.
  unfold box_covers, box, inject_Z. cbn [fst snd x0 x1 y0 y1] in *. lra.
Qed.



Lemma on_hull_corner : on_hull grid3x3 0.
Proof.
  exists (pt 5 5). split; [reflexivity|].
  exists (-1 # 1)%Q, (-1 # 1)%Q. split.
  - intros [H _]. vm_compute in H. discriminate H.
  - repeat (apply Forall_cons; split); try apply Forall_nil_2;
      vm_compute; discriminate.
Qed.

Lemma centre_inside (i : nat) : on_hull grid3x3 i -> i <> 4%nat.
Proof.
  intros (p & Hp & a & b & Hab & HF) ->.
  injection Hp as <-. apply Hab.
  unfold grid3x3 in HF.
  repeat (apply Forall_cons in HF as [? HF]).
  unfold pt, inject_Z in *. simpl in *. split; lra.
Qed.

Lemma region_per_point_grid3x3 : region_per_point Voronoi grid3x3.
Proof. intros vor Hvor. rewrite Voronoi_grid3x3 in Hvor. injection Hvor as <-. reflexivity. Qed.

Lemma hull_regions_unbounded_grid3x3 : hull_regions_unbounded Voronoi grid3x3.
Proof.
  intros vor i Hvor Hi. rewrite Voronoi_grid3x3 in Hvor. injection Hvor as <-.
  pose proof (centre_inside i Hi) as Hcentre.
  destruct Hi as (p & Hp & _).
  do 9 (destruct i as [|i];
        [first [ exfalso; apply Hcentre; reflexivity
               | eexists; split; [vm_compute; reflexivity | set_solver] ] |]).
  discriminate Hp.
Qed.

End SampleFacts.

(** ** The properties on the scenarios *)

Import Sample SampleFacts.

(** C1 on the 3 x 3 grid: the corner point, generator 0, is skipped. *)
Lemma unbounded_region_skipped_grid3x3 :
  (forall boundary,
     generator_cell Polygon intersection is_empty diagram3x3 boundary 0 = Ok None) /\
  tessellate grid3x3 square30 =
    (let* boundary := unary_union (geometry square30) in
     let* voronoi_polygons :=
       voronoi_loop Polygon intersection is_empty diagram3x3 boundary
         (delete 0%nat (point_region diagram3x3)) [] in
     Ok {| geometry := voronoi_polygons; crs := crs square30 |}).
Proof.
  apply (unbounded_region_skipped Voronoi unary_union Polygon intersection is_empty
           grid3x3 square30 diagram3x3 0).
  - vm_compute. reflexivity.
  - exists [-1; 0]. split; [reflexivity|]. apply list_elem_of_here.
Defined.

(** C2 as stated, on the 3 x 3 grid: the one row of the frame is
    labelled 0 and holds the cell of the centre, generator 4; generator
    0 is a corner and has no cell. *)
Lemma rows_not_paired_with_generators :
  tessellate grid3x3 square30 = Ok cells3x3 /\
  ~ rows_paired_with_generators Polygon intersection is_empty
      diagram3x3 [box 0 0 30 30] cells3x3.
Proof.
  split; [vm_compute; reflexivity|].
  intros H. specialize (H 0%nat [box 10 10 20 20] (list_elem_of_here _ _)).
  vm_compute in H. discriminate H.
Qed.

(** C2 (amended) on the 4 x 3 grid. *)
Lemma cells_in_point_order_grid4x3 :
  exists vor boundary gens,
    Voronoi grid4x3 = Ok vor /\
    unary_union (geometry strip25) = Ok boundary /\
    StronglySorted lt gens /\
    Forall2 (fun g c =>
               generator_cell Polygon intersection is_empty vor boundary g = Ok (Some c))
            gens (geometry cells4x3) /\
    (forall i c,
       generator_cell Polygon intersection is_empty vor boundary i = Ok (Some c) ->
       i ∈ gens) /\
    gdf_rows cells4x3 = zip (seq 0 (length gens)) (geometry cells4x3).
Proof.
  apply (cells_in_point_order Voronoi unary_union Polygon intersection is_empty
           grid4x3 strip25 cells4x3).
  vm_compute. reflexivity.
Defined.



(** C4 on the 4 x 3 grid, cut by the strip. *)
Lemma cells_within_boundary_grid4x3 :
  tessellate grid4x3 strip25 = Ok cells4x3 /\
  forall c, c ∈ geometry cells4x3 ->
    forall p, covers c p -> exists g, g ∈ geometry strip25 /\ covers g p.
Proof.
  split; [vm_compute; reflexivity|].
  apply (cells_within_boundary Voronoi unary_union Polygon intersection is_empty covers
           grid4x3 strip25 cells4x3).
  - apply intersection_within_sample.
  - apply union_within_sample.
  - vm_compute. reflexivity.
Defined.

(** C5, as stated, on the 3 x 3 grid with its centre given twice, a
    legal input: both copies of the centre have the same region, the
    frame holds the same cell twice, and the centre is an interior point
    of both rows. *)
Lemma repeated_point_cells_overlap :
  legal_points grid3x3_repeat = true /\
  tessellate grid3x3_repeat square30 = Ok cells3x3_repeat /\
  exists k l ck cl p,
    k <> l /\
    geometry cells3x3_repeat !! k = Some ck /\
    geometry cells3x3_repeat !! l = Some cl /\
    interior covers ck p /\ interior covers cl p.
Proof.
  split; [vm_compute; reflexivity|]. split; [vm_compute; reflexivity|].
  exists 0%nat, 1%nat, [box 10 10 20 20], [box 10 10 20 20], (pt 15 15).
  split; [discriminate|]. split; [reflexivity|]. split; [reflexivity|].
  split; apply interior_centre.
Qed.

(** C5 (amended) on the 4 x 3 grid: its two cells. *)
Lemma cells_interiors_disjoint_grid4x3 :
  tessellate grid4x3 strip25 = Ok cells4x3 /\
  forall k l ck cl, k <> l ->
    geometry cells4x3 !! k = Some ck -> geometry cells4x3 !! l = Some cl ->
    forall p, ~ (interior covers ck p /\ interior covers cl p).
Proof.
  split; [vm_compute; reflexivity|].
  apply (cells_interiors_disjoint Voronoi unary_union Polygon intersection is_empty covers
           grid4x3 strip25 cells4x3).
  - vm_compute. reflexivity.
  - apply region_per_point_grid4x3.
  - apply separate_generators_disjoint_grid4x3.
  - apply intersection_within_sample.
  - vm_compute. reflexivity.
Defined.

(** C6 on the 3 x 3 grid: nine points, a corner on the hull, one cell. *)
Lemma fewer_cells_than_points_grid3x3 :
  (length (geometry cells3x3) <= length grid3x3)%nat /\
  ((exists i, on_hull grid3x3 i) ->
   (length (geometry cells3x3) < length grid3x3)%nat).
Proof.
  apply (fewer_cells_than_points Voronoi unary_union Polygon intersection is_empty
           grid3x3 square30 cells3x3).
  - apply region_per_point_grid3x3.
  - apply hull_regions_unbounded_grid3x3.
  - vm_compute. reflexivity.
Defined.

(** C7 on the 3 x 3 grid with no boundary polygon. *)
Lemma empty_boundary_no_cells_grid3x3 :
  tessellate grid3x3 no_boundary = Ok no_cells.
Proof.
  apply (empty_boundary_no_cells Voronoi unary_union Polygon intersection is_empty
           grid3x3 diagram3x3 crs_utm).
  - vm_compute. reflexivity.
  - apply well_formed_diagram3x3.
  - apply rings_accepted_diagram3x3.
  - apply union_of_nothing_empty_sample.
  - apply intersection_with_empty_sample.
Defined.

(** C9 (amended) on a record tagged [amenity = cafe], and what a
    [pd.NA] cell does. *)
Lemma classifica_cafe_tag_cafe :
  exists tag,
    classifica_cafe (fun s => s) {[ "amenity" := VStr "cafe" ]} = Ok tag /\
    tag ∈ ["alta"; "media"; "baixa"].
Proof.
  apply (classifica_cafe_tag (fun s => s) {[ "amenity" := VStr "cafe" ]}).
  intros key Hkey.
  repeat (apply elem_of_cons in Hkey as [-> | Hkey]; [vm_compute; discriminate|]).
  apply elem_of_nil in Hkey. destruct Hkey.
Defined.

Example classifica_cafe_NA :
  classifica_cafe (fun s => s) {[ "shop" := VNA ]} = Raise TypeError /\
  classifica_cafe (fun s => s) (<["amenity" := VStr "cafe"]> {[ "shop" := VNA ]}) =
    Ok "alta".
Proof. split; vm_compute; reflexivity. Qed.

(** C10 on the 4 x 3 grid. *)
Lemma crs_of_boundary_grid4x3 : crs cells4x3 = crs strip25.
Proof.
  apply (crs_of_boundary Voronoi unary_union Polygon intersection is_empty
           grid4x3 strip25 cells4x3).
  vm_compute. reflexivity.
Defined.

(** * Further properties of the code *)

(** ** The tessellation: errors, indices and cells *)

Section TessellationEdges.

Context {Coord Geom CRS : Type}.
Variable Voronoi : list Coord -> result (Diagram Coord).
Variable unary_union : list Geom -> result Geom.
Variable Polygon : list Coord -> result Geom.
Variable intersection : Geom -> Geom -> result Geom.
Variable is_empty : Geom -> bool.
Variable covers : Geom -> Q * Q -> Prop.

Local Abbreviation cell := (region_cell Polygon intersection is_empty).
Local Abbreviation loop := (voronoi_loop Polygon intersection is_empty).
Local Abbreviation gen_cell := (generator_cell Polygon intersection is_empty).
Local Abbreviation call :=
  (calcular_voronoi (CRS:=CRS) Voronoi unary_union Polygon intersection is_empty).

Lemma voronoi_loop_returns (vor : Diagram Coord) (b : Geom) (rs : list Z) (acc : list Geom) :
  Forall (fun r => exists oc, cell vor b r = Ok oc) rs ->
  exists acc', loop vor b rs acc = Ok acc'.
Proof.
  intros Hrs. revert acc. induction Hrs as [|r rs [oc Hoc] _ IH]; intros acc; simpl.
  - eexists. reflexivity.
  - rewrite Hoc. simpl. apply IH.
Qed.

(** X1.  The call has no handler: the first iteration that raises ends
    the call with its exception, and the cells appended by the
    iterations before it are lost with the list. *)
Theorem iteration_error_aborts (cafe_coords : list Coord)
    (boundary_gdf : GeoDataFrame Geom CRS) (vor : Diagram Coord) (boundary : Geom)
    (before after : list Z) (r : Z) (e : exn) :
  Voronoi cafe_coords = Ok vor ->
  unary_union (geometry boundary_gdf) = Ok boundary ->
  point_region vor = before ++ r :: after ->
  Forall (fun r' => exists oc, cell vor boundary r' = Ok oc) before ->
  cell vor boundary r = Raise e ->
  call cafe_coords boundary_gdf = Raise e.
Proof.
  intros Hvor Hb Hpr Hbefore Hr. unfold calcular_voronoi.
  rewrite Hvor, Hb. simpl. rewrite Hpr, voronoi_loop_app.
  destruct (voronoi_loop_returns vor boundary before [] Hbefore) as [acc Hacc].
  rewrite Hacc. simpl. rewrite Hr. reflexivity.
Qed.

Lemma py_index_negative {A : Type} (l : list A) (i : Z) :
  - Z.of_nat (length l) <= i < 0 ->
  py_index l i = py_index l (i + Z.of_nat (length l)) /\
  exists x, l !! Z.to_nat (i + Z.of_nat (length l)) = Some x /\ py_index l i = Ok x.
Proof.
  intros Hi.
  destruct (py_index_in_range l (i + Z.of_nat (length l))) as (x & Hx & Hlk); [lia|].
  assert (py_index l i = py_index l (i + Z.of_nat (length l))) as Heq.
  { unfold py_index.
    destruct (Z.ltb_spec i 0) as [_|?]; [|lia].
    destruct (Z.ltb_spec (i + Z.of_nat (length l)) 0) as [?|_]; [lia|]. reflexivity. }
  split; [exact Heq|]. exists x. split; [exact Hlk | congruence].
Qed.

(** X2.  A negative entry of [point_region], such as the [-1] scipy uses
    for a point without a region, is not an error: Python counts it from
    the end of [regions], so the point is given the region found there,
    and with it that region's cell. *)
Theorem negative_region_index_wraps (vor : Diagram Coord) (boundary : Geom)
    (i : nat) (r : Z) :
  point_region vor !! i = Some r ->
  - Z.of_nat (length (regions vor)) <= r < 0 ->
  (exists region,
     regions vor !! Z.to_nat (r + Z.of_nat (length (regions vor))) = Some region /\
     generator_region vor i = Ok region) /\
  gen_cell vor boundary i = cell vor boundary (r + Z.of_nat (length (regions vor))).
Proof.
  intros Hi Hr.
  destruct (py_index_negative (regions vor) r Hr) as (Heq & region & Hlk & Hregion).
  split.
  - exists region. split; [exact Hlk|]. unfold generator_region. rewrite Hi. exact Hregion.
  - unfold generator_cell, region_cell. rewrite Hi, Heq. reflexivity.
Qed.

Lemma generator_cell_region (vor : Diagram Coord) (b : Geom) (i : nat) (c : Geom) :
  gen_cell vor b i = Ok (Some c) ->
  is_empty c = false /\
  exists region, generator_region vor i = Ok region /\ region <> [] /\ (-1) ∉ region.
Proof.
  intros H. split.
  - apply generator_cell_polygon in H as (g & _ & _ & He). exact He.
  - unfold generator_cell, generator_region in *.
    destruct (point_region vor !! i) as [r|]; [|discriminate].
    unfold region_cell in H. apply bind_Ok in H as (region & Hregion & H).
    exists region. split; [exact Hregion|].
    destruct (skipped region) eqn:Hskip; [discriminate|].
    apply skipped_false, Hskip.
Qed.

(** X3.  The frame never holds an empty geometry, and every cell in it
    is the cell, clipped to the region the call resolved the boundary
    to, of a generator whose region is neither empty nor unbounded. *)
Theorem cells_nonempty_of_bounded_regions (cafe_coords : list Coord)
    (boundary_gdf out : GeoDataFrame Geom CRS) (vor : Diagram Coord) :
  Voronoi cafe_coords = Ok vor ->
  call cafe_coords boundary_gdf = Ok out ->
  exists boundary,
    unary_union (geometry boundary_gdf) = Ok boundary /\
    forall c, c ∈ geometry out ->
      is_empty c = false /\
      exists i region,
        gen_cell vor boundary i = Ok (Some c) /\
        generator_region vor i = Ok region /\ region <> [] /\ (-1) ∉ region.
Proof.
  intros Hvor H.
  destruct (calcular_voronoi_generators _ _ _ _ _ _ _ _ H)
    as (vor' & boundary & gens & Hvor' & Hb & _ & HF & _).
  assert (vor' = vor) as -> by congruence.
  exists boundary. split; [exact Hb|]. intros c Hc.
  apply list_elem_of_lookup in Hc as [k Hk].
  destruct (Forall2_lookup_r _ _ _ _ _ HF Hk) as (i & _ & Hcell).
  destruct (generator_cell_region _ _ _ _ Hcell) as (He & region & Hregion & Hne & Hinf).
  split; [exact He|]. exists i, region. auto.
Qed.

(** X4.  Clipping only removes points: every cell of the frame lies
    within the polygon of its own generator's region. *)
Theorem cell_within_own_polygon (cafe_coords : list Coord)
    (boundary_gdf out : GeoDataFrame Geom CRS) (vor : Diagram Coord) :
  intersection_within intersection covers ->
  Voronoi cafe_coords = Ok vor ->
  call cafe_coords boundary_gdf = Ok out ->
  forall c, c ∈ geometry out ->
    exists boundary i g,
      gen_cell vor boundary i = Ok (Some c) /\
      generator_polygon Polygon vor i = Ok (Some g) /\
      forall p, covers c p -> covers g p.
Proof.
  intros Hinter Hvor H c Hc.
  destruct (calcular_voronoi_generators _ _ _ _ _ _ _ _ H)
    as (vor' & boundary & gens & Hvor' & _ & _ & HF & _).
  assert (vor' = vor) as -> by congruence.
  apply list_elem_of_lookup in Hc as [k Hk].
  destruct (Forall2_lookup_r _ _ _ _ _ HF Hk) as (i & _ & Hcell).
  destruct (generator_cell_polygon _ _ _ _ _ _ _ Hcell) as (g & Hg & Hint & _).
  exists boundary, i, g. repeat (split; [assumption|]).
  intros p Hp. apply (Hinter _ _ _ Hint p Hp).
Qed.

End TessellationEdges.

(** ** The classification: what decides a tag *)

Lemma prefix_app (t1 t2 s : string) :
  String.prefix (t1 +:+ t2) s = true -> String.prefix t1 s = true.
Proof.
  revert s. induction t1 as [|a t1 IH]; intros [|b s]; simpl;
    try reflexivity; try discriminate.
  destruct (Ascii.ascii_dec a b); [apply IH | discriminate].
Qed.

(** A name that contains a term contains every beginning of the term. *)
Lemma contains_app (t1 t2 nome : string) :
  contains (t1 +:+ t2) nome = true -> contains t1 nome = true.
Proof.
  induction nome as [|b nome IH]; cbn [contains].
  - rewrite !orb_false_r. apply prefix_app.
  - intros H. apply orb_true_iff in H as [H|H]; apply orb_true_iff.
    + left. exact (prefix_app _ _ _ H).
    + right. exact (IH H).
Qed.

Lemma append_String (b : Ascii.ascii) (t post : string) :
  String b t +:+ post = String b (t +:+ post).
Proof. reflexivity. Qed.

Lemma prefix_spec (t s : string) :
  String.prefix t s = true <-> exists post, s = t +:+ post.
Proof.
  revert s. induction t as [|a t IH]; intros [|b s]; simpl.
  - split; [exists ""; reflexivity | reflexivity].
  - split; [eexists; reflexivity | reflexivity].
  - split; [discriminate | intros [post Hpost]; discriminate].
  - destruct (Ascii.ascii_dec a b) as [->|Hab].
    + rewrite IH. split; intros [post Hpost]; exists post;
        rewrite append_String in *; congruence.
    + split; [discriminate | intros [post Hpost]; rewrite append_String in Hpost; congruence].
Qed.

(** [contains] is the substring test of [termo in nome]. *)
Lemma contains_spec (termo nome : string) :
  contains termo nome = true <-> exists pre post, nome = pre +:+ termo +:+ post.
Proof.
  induction nome as [|b nome IH]; cbn [contains]; rewrite orb_true_iff, prefix_spec.
  - split.
    + intros [[post Hpost] | H]; [|discriminate]. exists "", post. exact Hpost.
    + intros (pre & post & H). left. destruct pre; [|discriminate].
      exists post. exact H.
  - rewrite IH. split.
    + intros [[post Hpost] | (pre & post & H)].
      * exists "", post. exact Hpost.
      * exists (String b pre), post. rewrite append_String. congruence.
    + intros (pre & post & H). destruct pre as [|b' pre];
        [change ("" +:+ termo +:+ post) with (termo +:+ post) in H
        | rewrite append_String in H].
      * left. exists post. exact H.
      * right. exists pre, post. congruence.
Qed.

(** X5.  The tag of a record depends on its [amenity], [shop], [cuisine]
    and [name] alone: two records that agree on these four get the same
    tag, whatever else they hold. *)
Theorem classifica_cafe_reads_four_columns (lower : string -> string)
    (row1 row2 : gmap string value) :
  (forall key, key ∈ ["amenity"; "shop"; "cuisine"; "name"] -> row1 !! key = row2 !! key) ->
  classifica_cafe lower row1 = classifica_cafe lower row2.
Proof.
  intros H. unfold classifica_cafe, row_get.
  rewrite (H "amenity"), (H "shop"), (H "cuisine"), (H "name") by set_solver.
  reflexivity.
Qed.

(** X6.  A record is tagged [baixa] exactly when every tag test answers
    no and its lower-cased name contains none of [cafe], [coffee],
    [espresso] and [café]: the term [cafeteria] of the code never
    decides, a name that contains it contains [cafe].  A record with a
    [pd.NA] cell, on which a test raises, is not tagged. *)
Theorem classifica_cafe_baixa (lower : string -> string) (row : gmap string value) :
  classifica_cafe lower row = Ok "baixa" <->
  eq_str (row_get row "amenity" VNone) "cafe" = Ok false /\
  eq_str (row_get row "shop" VNone) "coffee" = Ok false /\
  in_strs (row_get row "cuisine" VNone) ["cafe"; "coffee_shop"] = Ok false /\
  in_strs (row_get row "shop" VNone) ["bakery"; "confectionery"] = Ok false /\
  in_strs (row_get row "cuisine" VNone) ["bakery"; "breakfast"; "dessert"] = Ok false /\
  existsb (fun termo => contains termo (lower (py_str (row_get row "name" (VStr "")))))
    ["cafe"; "coffee"; "espresso"; "café"] = false.
Proof.
  unfold classifica_cafe, or_else.
  set (nome := lower (py_str (row_get row "name" (VStr "")))).
  assert (contains "cafeteria" nome = true -> contains "cafe" nome = true) as Hcafe
    by apply (contains_app "cafe" "teria").
  destruct (eq_str (row_get row "amenity" VNone) "cafe") as [[|]|e1];
    [simpl; split; [discriminate | intros (H & _); discriminate] |
     | simpl; split; [discriminate | intros (H & _); discriminate]].
  destruct (eq_str (row_get row "shop" VNone) "coffee") as [[|]|e2];
    [simpl; split; [discriminate | intros (_ & H & _); discriminate] |
     | simpl; split; [discriminate | intros (_ & H & _); discriminate]].
  destruct (in_strs (row_get row "cuisine" VNone) ["cafe"; "coffee_shop"]) as [[|]|e3];
    [simpl; split; [discriminate | intros (_ & _ & H & _); discriminate] |
     | simpl; split; [discriminate | intros (_ & _ & H & _); discriminate]].
  destruct (in_strs (row_get row "shop" VNone) ["bakery"; "confectionery"]) as [[|]|e4];
    [simpl; split; [discriminate | intros (_ & _ & _ & H & _); discriminate] |
     | simpl; split; [discriminate | intros (_ & _ & _ & H & _); discriminate]].
  destruct (in_strs (row_get row "cuisine" VNone) ["bakery"; "breakfast"; "dessert"])
    as [[|]|e5];
    [simpl; split; [discriminate | intros (_ & _ & _ & _ & H & _); discriminate] |
     | simpl; split; [discriminate | intros (_ & _ & _ & _ & H & _); discriminate]].
  simpl.
  destruct (contains "cafe" nome) eqn:H1; simpl;
    [split; [discriminate | intros (_ & _ & _ & _ & _ & H); discriminate]|].
  destruct (contains "coffee" nome); simpl;
    [split; [discriminate | intros (_ & _ & _ & _ & _ & H); discriminate]|].
  destruct (contains "cafeteria" nome); [specialize (Hcafe eq_refl); discriminate|].
  simpl.
  destruct (contains "espresso" nome); simpl;
    [split; [discriminate | intros (_ & _ & _ & _ & _ & H); discriminate]|].
  destruct (contains "café" nome); simpl;
    [split; [discriminate | intros (_ & _ & _ & _ & _ & H); discriminate]|].
  split; [intros _; repeat split | reflexivity].
Qed.

(** ** The markers *)

Section Marcadores.

Context {Coord : Type}.


Lemma marcadores_loop_app (popup_cols : list string) (mapa : folium_map Coord)
    (rows1 rows2 : list (marker_row Coord)) :
  marcadores_loop popup_cols mapa (rows1 ++ rows2) =
  (let* mapa' := marcadores_loop popup_cols mapa rows1 in
   marcadores_loop popup_cols mapa' rows2).
Proof.
  revert mapa. induction rows1 as [|row rows1 IH]; intros mapa; simpl; [reflexivity|].
  destruct (marcador popup_cols mapa row) as [mapa'|e]; simpl; [apply IH | reflexivity].
Qed.

(** X8.  Calls add up: marking the rows of one frame and then those of
    another gives the map that marking their concatenation gives, so a
    second call with the same frame puts every marker on the map a
    second time; and both ways end with the same exception. *)
Theorem markers_accumulate (mapa : folium_map Coord)
    (rows1 rows2 : list (marker_row Coord)) (popup_cols : option (list string)) :
  (let* mapa' := adicionar_marcadores_cafes mapa rows1 popup_cols in
   adicionar_marcadores_cafes mapa' rows2 popup_cols) =
  adicionar_marcadores_cafes mapa (rows1 ++ rows2) popup_cols.
Proof.
  unfold adicionar_marcadores_cafes. symmetry. apply marcadores_loop_app.
Qed.

(** X9.  A marker is gray exactly when the row has a [confianca_cafe]
    cell that is none of the strings [alta], [media], [baixa]; a row
    without the column is red, as a [baixa] one is. *)
Theorem marker_colour_gray (row : marker_row Coord) :
  (marker_colour row = "gray" <->
   exists v, cells row !! "confianca_cafe" = Some v /\
             v <> VStr "alta" /\ v <> VStr "media" /\ v <> VStr "baixa") /\
  (cells row !! "confianca_cafe" = None \/
   cells row !! "confianca_cafe" = Some (VStr "baixa") ->
   marker_colour row = "red").
Proof.
  unfold marker_colour, row_get. split.
  - destruct (cells row !! "confianca_cafe") as [v|]; simpl.
    + assert (forall tag, default "gray" (cores !! tag) = "gray" <->
                          tag <> "alta" /\ tag <> "media" /\ tag <> "baixa") as Hcores.
      { intros tag. unfold cores. rewrite !lookup_insert, lookup_empty.
        repeat case_decide; subst; simpl; split;
          try discriminate; try (intros (? & ? & ?); congruence); auto. }
      destruct v as [|tag| |text].
      * split; [|reflexivity]. intros _. exists VNone. repeat split; discriminate.
      * rewrite Hcores. split.
        -- intros (Ha & Hm & Hb). exists (VStr tag). repeat split; congruence.
        -- intros (v & [= <-] & Ha & Hm & Hb). repeat split; congruence.
      * split; [|reflexivity]. intros _. exists VNA. repeat split; discriminate.
      * split; [|reflexivity]. intros _. exists (VOther text). repeat split; discriminate.
    + vm_compute. split; [discriminate|]. intros (v & Hv & _). discriminate.
  - intros [-> | ->]; vm_compute; reflexivity.
Qed.

(** X10.  The two functions fit: a row whose [confianca_cafe] cell holds
    the tag [classifica_cafe] gave a record gets green for [alta],
    orange for [media] and red for [baixa], never gray. *)
Theorem marker_colour_of_tag (lower : string -> string) (record : gmap string value)
    (tag : string) (row : marker_row Coord) :
  classifica_cafe lower record = Ok tag ->
  cells row !! "confianca_cafe" = Some (VStr tag) ->
  (tag, marker_colour row) ∈
    [("alta", "green"); ("media", "orange"); ("baixa", "red")].
Proof.
  intros Htag Hcell. unfold marker_colour, row_get. rewrite Hcell. simpl.
  destruct (classifica_cafe_cases lower record tag Htag) as [-> | [-> | ->]];
    vm_compute; set_solver.
Qed.

(** X11.  The popup has one line for every requested column the row
    has, in the order requested, and nothing for a column the row
    lacks: the text [N/A] of the code is never used. *)
Theorem popup_text_present_columns (row : marker_row Coord) (popup_cols : list string) :
  popup_text row popup_cols =
  String.concat "<br>"
    (omap (fun col => (fun v => "<b>" +:+ col +:+ ":</b> " +:+ py_str v)
                        <$> cells row !! col) popup_cols).
Proof.
  unfold popup_text. f_equal.
  induction popup_cols as [|col popup_cols IH]; [reflexivity|].
  cbn [List.filter omap list_omap]. unfold in_index at 1.
  destruct (cells row !! col) as [v|] eqn:Hv; cbn [map fmap option_fmap option_map].
  - unfold row_get at 1. rewrite Hv, IH. reflexivity.
  - exact IH.
Qed.

End Marcadores.

(** ** The further properties on the scenarios *)

Import Scenarios.

(** X1 on a diagram with a region index past the end: the second
    iteration raises [IndexError] after the first appended a cell. *)
Lemma iteration_error_aborts_stale :
  calcular_voronoi (CRS:=string) (fun _ => Ok diagram_stale)
    unary_union Polygon intersection is_empty grid3x3 square30 = Raise IndexError.
Proof.
  apply (iteration_error_aborts (fun _ => Ok diagram_stale)
           unary_union Polygon intersection is_empty
           grid3x3 square30 diagram_stale [box 0 0 30 30] [5] [1] 10 IndexError).
  - reflexivity.
  - reflexivity.
  - reflexivity.
  - apply Forall_cons. split; [|apply Forall_nil_2].
    eexists. vm_compute. reflexivity.
  - vm_compute. reflexivity.
Defined.

(** X2 on a diagram with the entry [-1]: the third point is given the
    last region, the one of the second point. *)
Lemma negative_region_index_wraps_unassigned :
  (exists region,
     regions diagram_unassigned !! 2%nat = Some region /\
     generator_region diagram_unassigned 2 = Ok region) /\
  generator_cell Polygon intersection is_empty diagram_unassigned [box 0 0 30 30] 2 =
  region_cell Polygon intersection is_empty diagram_unassigned [box 0 0 30 30] 2.
Proof.
  apply (negative_region_index_wraps Polygon intersection is_empty
           diagram_unassigned [box 0 0 30 30] 2 (-1)).
  - reflexivity.
  - simpl. lia.
Defined.

(** The cell of the second point is then in the frame twice. *)
Example unassigned_point_repeats_cell :
  calcular_voronoi (CRS:=string) (fun _ => Ok diagram_unassigned)
    unary_union Polygon intersection is_empty grid3x3 square30 =
  Ok {| geometry := [[box 10 10 20 20]; [box 10 10 20 20]]; crs := crs_utm |}.
Proof. vm_compute. reflexivity. Qed.

(** X3 on the 4 x 3 grid. *)
Lemma cells_nonempty_of_bounded_regions_grid4x3 :
  exists boundary,
    unary_union (geometry strip25) = Ok boundary /\
    forall c, c ∈ geometry cells4x3 ->
      is_empty c = false /\
      exists i region,
        generator_cell Polygon intersection is_empty diagram4x3 boundary i = Ok (Some c) /\
        generator_region diagram4x3 i = Ok region /\ region <> [] /\ (-1) ∉ region.
Proof.
  apply (cells_nonempty_of_bounded_regions Voronoi unary_union Polygon intersection is_empty
           grid4x3 strip25 cells4x3 diagram4x3).
  - vm_compute. reflexivity.
  - vm_compute. reflexivity.
Defined.

(** X4 on the 4 x 3 grid. *)
Lemma cell_within_own_polygon_grid4x3 :
  tessellate grid4x3 strip25 = Ok cells4x3 /\
  forall c, c ∈ geometry cells4x3 ->
    exists boundary i g,
      generator_cell Polygon intersection is_empty diagram4x3 boundary i = Ok (Some c) /\
      generator_polygon Polygon diagram4x3 i = Ok (Some g) /\
      forall p, covers c p -> covers g p.
Proof.
  split; [vm_compute; reflexivity|].
  apply (cell_within_own_polygon Voronoi unary_union Polygon intersection is_empty covers
           grid4x3 strip25 cells4x3 diagram4x3).
  - apply intersection_within_sample.
  - vm_compute. reflexivity.
  - vm_compute. reflexivity.
Defined.

(** X5 on a record and the same record with a column more. *)
Lemma classifica_cafe_reads_four_columns_website :
  classifica_cafe (fun s => s) (cells cafe_row) =
  classifica_cafe (fun s => s) (<["website" := VStr "cafe.example"]> (cells cafe_row)).
Proof.
  apply (classifica_cafe_reads_four_columns (fun s => s) (cells cafe_row)
           (<["website" := VStr "cafe.example"]> (cells cafe_row))).
  intros key Hkey.
  repeat (apply elem_of_cons in Hkey as [-> | Hkey]; [vm_compute; reflexivity|]).
  apply elem_of_nil in Hkey. destruct Hkey.
Defined.


(** X9 on a row without a tag. *)
Lemma marker_colour_untagged : marker_colour untagged_row = "red".
Proof.
  apply (proj2 (marker_colour_gray untagged_row)). left. vm_compute. reflexivity.
Defined.

(** X10 on a record tagged [amenity = cafe]. *)
Lemma marker_colour_of_tag_cafe :
  ("alta", marker_colour cafe_row) ∈
    [("alta", "green"); ("media", "orange"); ("baixa", "red")].
Proof.
  apply (marker_colour_of_tag (fun s => s) (cells cafe_row) "alta" cafe_row).
  - vm_compute. reflexivity.
  - vm_compute. reflexivity.
Defined.

(** A new map marked with three rows: the bakery has no point and gets
    no marker; the row without a tag gets a red marker with an empty
    popup and the tooltip of the code. *)
Example markers_of_three_rows :
  adicionar_marcadores_cafes
    (criar_mapa_base (-37 # 10)%Q (-385 # 10)%Q None None)
    [cafe_row; bakery_row; untagged_row] None =
  Ok {| map_location := ((-37 # 10)%Q, (-385 # 10)%Q);
        map_zoom_start := 12;
        map_tiles := "OpenStreetMap";
        children :=
          [ {| location := ((-37 # 10)%Q, (-385 # 10)%Q);
               popup := "<b>name:</b> Café Central<br><b>confianca_cafe:</b> alta";
               popup_max_width := 300; tooltip := VStr "Café Central";
               icon_color := "green"; icon := "coffee"; icon_prefix := "fa" |};
            {| location := ((-4 # 1)%Q, (-38 # 1)%Q);
               popup := ""; popup_max_width := 300; tooltip := VStr "Café";
               icon_color := "red"; icon := "coffee"; icon_prefix := "fa" |} ] |}.
Proof. vm_compute. reflexivity. Qed.
